(** * Lead fetcher: normalisation, seen-store and de-duplication pipeline

    A shallow embedding of [src/fetcher.py] and [src/utils/db.py].

    - [Module Py] is the fragment of the Python runtime the two files rely
      on: JSON values as produced by [json.load] / [resp.json()],
      truthiness, [dict.get], [or], [str.lower], [str.strip], the [in]
      test on strings, iteration, [str()] and exceptions.
    - [Module LeadDB] is the one-column [seen_leads] table of [db.py].
    - [Module Fetcher] is [fetcher.py]: [build_url], [fetch_leads],
      [normalize_lead], [write_output], [load_sample] and [main].

    Strings are modelled as sequences of 8-bit characters; [str.lower] and
    [str.strip] are modelled on the ASCII range (characters above 127 are
    left alone).  A JSON float is carried as its Python [repr] text.
    Logging and [time.sleep] have no effect on any value and are left out. *)

From stdpp Require Import base gmap strings list sorting.
From Stdlib Require Import ZArith Ascii String DecimalString DecimalPos DecimalZ.

Set Warnings "-register-all".

Local Open Scope string_scope.
Local Open Scope list_scope.
Local Open Scope Z_scope.

(* ===================================================================== *)
(** ** The Python fragment                                                *)
(* ===================================================================== *)

Module Py.

(** Values of [json.load]: [None], [bool], [int], [float], [str], [list],
    [dict] (string keys, in insertion order, one binding per key). *)
Inductive json : Type :=
| JNull
| JBool (b : bool)
| JInt (z : Z)
| JFloat (repr : string)
| JStr (s : string)
| JList (xs : list json)
| JDict (kvs : list (string * json)).

(** Exceptions that the modelled code can raise. *)
Inductive exn : Type :=
| AttributeError
| TypeError
| KeyError
| IndexError
| RuntimeError
| HTTPError
| JSONDecodeError
| RequestException.

Inductive result (A : Type) : Type :=
| Ok (a : A)
| Raise (e : exn).
Arguments Ok {A} a.
Arguments Raise {A} e.

#[global] Instance result_ret : MRet result := fun A a => Ok a.

#[global] Instance result_bind : MBind result := fun A B k m =>
  match m with
  | Ok a => k a
  | Raise e => Raise e
  end.

(** [bool(v)]. *)
Definition truthy (v : json) : bool :=
  match v with
  | JNull => false
  | JBool b => b
  | JInt z => negb (z =? 0)
  | JFloat r => negb (String.eqb r "0.0" || String.eqb r "-0.0")
  | JStr s => negb (String.eqb s "")
  | JList xs => match xs with [] => false | _ :: _ => true end
  | JDict kvs => match kvs with [] => false | _ :: _ => true end
  end.

(** [a or b]: [a] when it is truthy, [b] otherwise. *)
Definition py_or (a b : json) : json := if truthy a then a else b.

(** [d.get(k, default)] on the bindings of a dict. *)
Fixpoint lookup_key (k : string) (kvs : list (string * json)) : option json :=
  match kvs with
  | [] => None
  | (k', v) :: rest => if String.eqb k k' then Some v else lookup_key k rest
  end.

Definition dict_get (kvs : list (string * json)) (k : string) (default : json) : json :=
  match lookup_key k kvs with
  | Some v => v
  | None => default
  end.

(** [x.get(k, default)] on any value: only a dict has the method. *)
Definition get (x : json) (k : string) (default : json) : result json :=
  match x with
  | JDict kvs => Ok (dict_get kvs k default)
  | _ => Raise AttributeError
  end.

(** [sub in s] for two strings. *)
Fixpoint str_contains (sub s : string) : bool :=
  String.prefix sub s ||
  match s with
  | EmptyString => false
  | String _ s' => str_contains sub s'
  end.

Definition lower_char (c : ascii) : ascii :=
  let n := nat_of_ascii c in
  if ((65 <=? n) && (n <=? 90))%nat then ascii_of_nat (n + 32) else c.

(** [s.lower()]. *)
Fixpoint str_lower (s : string) : string :=
  match s with
  | EmptyString => EmptyString
  | String c s' => String (lower_char c) (str_lower s')
  end.

(** [c.isspace()]: tab, line feed, vertical tab, form feed, carriage
    return, the four separators 28..31, and space. *)
Definition is_space (c : ascii) : bool :=
  let n := nat_of_ascii c in
  (((9 <=? n) && (n <=? 13)) || ((28 <=? n) && (n <=? 32)))%nat.

Fixpoint lstrip (s : string) : string :=
  match s with
  | EmptyString => EmptyString
  | String c s' => if is_space c then lstrip s' else s
  end.

Definition str_rev (s : string) : string :=
  string_of_list_ascii (rev (list_ascii_of_string s)).

Definition rstrip (s : string) : string := str_rev (lstrip (str_rev s)).

(** [s.strip()]. *)
Definition str_strip (s : string) : string := rstrip (lstrip s).

(** The items a [for] loop (or [list.extend]) draws from a value: the
    elements of a list, the keys of a dict, the characters of a string;
    anything else is not iterable (and has no [len]). *)
Definition py_iter (v : json) : result (list json) :=
  match v with
  | JList xs => Ok xs
  | JDict kvs => Ok (map (fun kv => JStr (fst kv)) kvs)
  | JStr s => Ok (map (fun c => JStr (String c EmptyString)) (list_ascii_of_string s))
  | _ => Raise TypeError
  end.

(** [v[0]]: the first element of a list or character of a string; a dict
    from JSON has string keys only, so the key [0] is never there; other
    values are not subscriptable. *)
Definition first_item (v : json) : result json :=
  match v with
  | JList (x :: _) => Ok x
  | JList [] => Raise IndexError
  | JStr (String c _) => Ok (JStr (String c EmptyString))
  | JStr EmptyString => Raise IndexError
  | JDict _ => Raise KeyError
  | _ => Raise TypeError
  end.

(** *** [repr] and [str] *)

Definition hex_digit (n : nat) : ascii :=
  if (n <? 10)%nat then ascii_of_nat (48 + n) else ascii_of_nat (87 + n).

Definition repr_char (quote : ascii) (c : ascii) : string :=
  let n := nat_of_ascii c in
  if Ascii.eqb c quote || Ascii.eqb c "\"%char then String "\"%char (String c EmptyString)
  else if (n =? 9)%nat then "\t"
  else if (n =? 10)%nat then "\n"
  else if (n =? 13)%nat then "\r"
  else if ((n <? 32) || (n =? 127))%nat then
    String "\"%char (String "x"%char
      (String (hex_digit (n / 16)) (String (hex_digit (n mod 16)) EmptyString)))
  else String c EmptyString.

Fixpoint repr_chars (quote : ascii) (s : string) : string :=
  match s with
  | EmptyString => EmptyString
  | String c s' => repr_char quote c +:+ repr_chars quote s'
  end.

Definition single_quote : ascii := ascii_of_nat 39.

Definition double_quote : ascii := ascii_of_nat 34.

Definition has_char (c : ascii) (s : string) : bool :=
  existsb (Ascii.eqb c) (list_ascii_of_string s).

(** [repr(s)]: single quotes, unless [s] has a single quote and no double
    quote; characters above 127 are written as they are. *)
Definition repr_str (s : string) : string :=
  let quote := if has_char single_quote s && negb (has_char double_quote s)
               then double_quote else single_quote in
  String quote (repr_chars quote s +:+ String quote EmptyString).

Definition str_of_Z (z : Z) : string := NilZero.string_of_int (Z.to_int z).

Fixpoint join (sep : string) (parts : list string) : string :=
  match parts with
  | [] => EmptyString
  | [p] => p
  | p :: rest => p +:+ sep +:+ join sep rest
  end.

Fixpoint py_repr (v : json) : string :=
  match v with
  | JNull => "None"
  | JBool true => "True"
  | JBool false => "False"
  | JInt z => str_of_Z z
  | JFloat r => r
  | JStr s => repr_str s
  | JList xs => "[" +:+ join ", " (map py_repr xs) +:+ "]"
  | JDict kvs =>
      "{" +:+ join ", " (map (fun kv => repr_str (fst kv) +:+ ": " +:+ py_repr (snd kv)) kvs)
          +:+ "}"
  end.

(** [str(v)]. *)
Definition py_str (v : json) : string :=
  match v with
  | JStr s => s
  | _ => py_repr v
  end.

End Py.

Import Py.

(* ===================================================================== *)
(** ** [src/utils/db.py]: the seen-leads store                            *)
(* ===================================================================== *)

Module LeadDB.

(** The table [seen_leads(lead_id TEXT PRIMARY KEY)]: one row per
    identifier, so its contents are a finite set of strings.  Every
    statement is committed before the method returns, so the table is the
    whole state of a [LeadDB], in the process and on disk. *)
Abbreviation table := (gset string).

(** [LeadDB(db_path)]: opens the file and runs [CREATE TABLE IF NOT
    EXISTS]; [file] is the table already stored at [db_path], if any. *)
Definition init (file : option table) : table :=
  match file with
  | Some rows => rows
  | None => ∅
  end.

(** [SELECT 1 FROM seen_leads WHERE lead_id=?], then
    [fetchone() is not None]. *)
Definition is_seen (lead_id : string) (db : table) : bool :=
  bool_decide (lead_id ∈ db).

(** [INSERT OR IGNORE INTO seen_leads(lead_id) VALUES(?)]: the row is
    added unless the primary key is already there. *)
Definition mark_seen (lead_id : string) (db : table) : table :=
  if is_seen lead_id db then db else {[lead_id]} ∪ db.

(** A call on the store, and what it returns. *)
Inductive call : Type :=
| IsSeen (lead_id : string)
| MarkSeen (lead_id : string).

Inductive answer : Type :=
| Bool (b : bool)
| NoneReturned.

Definition step (db : table) (c : call) : answer * table :=
  match c with
  | IsSeen lead_id => (Bool (is_seen lead_id db), db)
  | MarkSeen lead_id => (NoneReturned, mark_seen lead_id db)
  end.

(** The table after a sequence of calls. *)
Definition run (calls : list call) (db : table) : table :=
  fold_left (fun d c => snd (step d c)) calls db.

End LeadDB.

(* ===================================================================== *)
(** ** [src/fetcher.py]                                                   *)
(* ===================================================================== *)

Module Fetcher.

(** *** [normalize_lead] *)

(** The dict that [normalize_lead] returns. *)
Record Lead : Type := mkLead {
  lead_id : option string;
  created_time : json;
  name : json;
  email : json;
  phone : json;
  raw : json
}.

(** The three locals [name], [email], [phone] of the field loop. *)
Record Contact : Type := mkContact {
  c_name : json;
  c_email : json;
  c_phone : json
}.

(** [x or val.strip()...]: the right operand is evaluated only when [x] is
    falsy, and then [val] must have the [strip] method. *)
Definition or_stripped (x val : json) (post : string -> string) : result json :=
  if truthy x then Ok x
  else match val with
       | JStr s => Ok (JStr (post (str_strip s)))
       | _ => Raise AttributeError
       end.

(** One iteration of [for field in ...]. *)
Definition field_step (st : Contact) (field : json) : result Contact :=
  field_name ← get field "name" JNull;
  key ← match py_or field_name (JStr "") with
        | JStr s => Ok (str_lower s)
        | _ => Raise AttributeError
        end;
  field_values ← get field "values" JNull;
  let vals := py_or field_values (JList []) in
  let vals := match vals with JStr _ => JList [vals] | _ => vals end in
  val ← (if truthy vals then first_item vals else Ok JNull);
  if negb (truthy val) then Ok st
  else if str_contains "email" key then
    e ← or_stripped (c_email st) val str_lower;
    Ok (mkContact (c_name st) e (c_phone st))
  else if str_contains "name" key || str_contains "full_name" key
          || str_contains "first_name" key then
    n ← or_stripped (c_name st) val id;
    Ok (mkContact n (c_email st) (c_phone st))
  else if str_contains "phone" key || str_contains "mobile" key then
    p ← or_stripped (c_phone st) val id;
    Ok (mkContact (c_name st) (c_email st) p)
  else Ok st.

Fixpoint field_loop (fields : list json) (st : Contact) : result Contact :=
  match fields with
  | [] => Ok st
  | field :: rest => st' ← field_step st field; field_loop rest st'
  end.

(** The locals [name], [email], [phone] after the loop over
    [raw.get("field_data", []) or []]. *)
Definition field_pass (r : json) : result Contact :=
  field_data ← get r "field_data" (JList []);
  fields ← py_iter (py_or field_data (JList []));
  field_loop fields (mkContact JNull JNull JNull).

Definition normalize_lead (r : json) : result Lead :=
  id_v ← get r "id" JNull;
  ct ← get r "created_time" JNull;
  st ← field_pass r;
  e ← get r "email" JNull;
  ea ← get r "email_address" JNull;
  let email := py_or (py_or (c_email st) e) ea in
  p ← get r "phone" JNull;
  pn ← get r "phone_number" JNull;
  let phone := py_or (py_or (c_phone st) p) pn in
  n ← get r "name" JNull;
  fn ← get r "full_name" JNull;
  let name := py_or (py_or (c_name st) n) fn in
  Ok {| lead_id := match id_v with JNull => None | _ => Some (py_str id_v) end;
        created_time := ct;
        name := name;
        email := email;
        phone := phone;
        raw := r |}.

(** *** Configuration, transport and [fetch_leads] *)

(** The module-level settings read from the environment. *)
Record Config : Type := mkConfig {
  ACCESS_TOKEN : option string;
  LEAD_FORM_ID : option string;
  GRAPH_API_VERSION : string;
  GRAPH_API_BASE : string;
  DB_PATH : string;
  PAGE_SIZE : Z
}.

(** [bool(s)] for an [Optional[str]]: neither [None] nor empty. *)
Definition str_truthy (s : option string) : bool :=
  match s with
  | Some s => negb (String.eqb s "")
  | None => false
  end.

Definition build_url (cfg : Config) (form_id : string) : string :=
  GRAPH_API_BASE cfg +:+ "/" +:+ GRAPH_API_VERSION cfg +:+ "/" +:+ form_id +:+ "/leads".

(** A GET as [SESSION.get(url, params=params, timeout=30)] sends it:
    [params] is [None] or the query parameters. *)
Definition request : Type := string * option (list (string * json)).

(** What [SESSION.get] hands back once the adapter's own retries are over:
    a response (status code, and the body if it parses as JSON), or an
    exception. *)
Record response : Type := mkResponse {
  status_code : Z;
  body : option json
}.

Inductive reply : Type :=
| Response (resp : response)
| Failed (e : exn).

(** The other end: its answer may depend on every request sent so far. *)
Definition transport : Type := list request -> request -> reply.

(** [SESSION.get]: returns the response and the requests sent so far.  A
    URL that is not a string has no scheme and is refused by [requests]
    before anything is sent. *)
Definition session_get (srv : transport) (log : list request) (url : json)
    (params : option (list (string * json))) : result response * list request :=
  match url with
  | JStr u =>
      match srv log (u, params) with
      | Response resp => (Ok resp, (log ++ [(u, params)])%list)
      | Failed e => (Raise e, (log ++ [(u, params)])%list)
      end
  | _ => (Raise RequestException, log)
  end.

(** [resp.raise_for_status()]. *)
Definition raise_for_status (resp : response) : result unit :=
  if (400 <=? status_code resp) && (status_code resp <? 600) then Raise HTTPError else Ok tt.

(** Lines 84-94 on the decoded body: the new [leads] and the next [url]. *)
Definition read_page (data : json) (leads : list json) : result (list json * json) :=
  let page_items := match data with JDict kvs => dict_get kvs "data" JNull | _ => data end in
  leads' ← (if truthy page_items
            then items ← py_iter page_items; Ok (leads ++ items)%list
            else Ok leads);
  let paging := match data with JDict kvs => dict_get kvs "paging" (JDict []) | _ => JDict [] end in
  url ← get paging "next" JNull;
  Ok (leads', url).

(** [while url: ...]; [None] when [fuel] iterations were not enough. *)
Fixpoint fetch_loop (fuel : nat) (srv : transport) (log : list request) (url : json)
    (params : option (list (string * json))) (leads : list json)
    : option (result (list json)) * list request :=
  if negb (truthy url) then (Some (Ok leads), log)
  else
    match fuel with
    | O => (None, log)
    | S fuel' =>
        match session_get srv log url params with
        | (Raise e, log1) => (Some (Raise e), log1)
        | (Ok resp, log1) =>
            let '(second, log2) :=
              if 500 <=? status_code resp
              then session_get srv log1 url params
              else (Ok resp, log1) in
            match second with
            | Raise e => (Some (Raise e), log2)
            | Ok resp =>
                match raise_for_status resp with
                | Raise e => (Some (Raise e), log2)
                | Ok _ =>
                    match body resp with
                    | None => (Some (Raise JSONDecodeError), log2)
                    | Some data =>
                        match read_page data leads with
                        | Raise e => (Some (Raise e), log2)
                        | Ok (leads', url') => fetch_loop fuel' srv log2 url' None leads'
                        end
                    end
                end
            end
        end
    end.

Definition initial_params (access_token : string) (since : option string) (page_size : Z)
    : list (string * json) :=
  ([("access_token", JStr access_token);
    ("fields", JStr "field_data,created_time,id");
    ("limit", JInt page_size)]
   ++ (if str_truthy since then [("since", JStr (default "" since))] else []))%list.

Definition fetch_leads (fuel : nat) (cfg : Config) (srv : transport) (log : list request)
    (access_token : option string) (form_id : string) (since : option string) (page_size : Z)
    : option (result (list json)) * list request :=
  if negb (str_truthy access_token) then (Some (Raise RuntimeError), log)
  else
    let url := build_url cfg form_id in
    let params := initial_params (default "" access_token) since page_size in
    fetch_loop fuel srv log (JStr url) (Some params) [].

(** *** [write_output], [load_sample] and [main] *)

Inductive output_mode : Type := json_mode | csv_mode.

(** [parse_args()]. *)
Record Args : Type := mkArgs {
  since : option string;
  output : output_mode;
  db : string;
  dry_run : bool;
  max_pages : option Z;
  mock_sample : bool
}.

(** [data/meta_leads_sample.json] as [load_sample] finds it. *)
Inductive sample_state : Type :=
| Missing
| NotJson
| Parsed (content : json).

(** Everything outside the process that [main] reads or writes: the
    fixture, the database files by path, the two output files (by the
    records serialised into them; the CSV also by its header) and the
    requests sent. *)
Record World : Type := mkWorld {
  sample_file : sample_state;
  databases : gmap string (gset string);
  new_leads_json : option (list Lead);
  new_leads_csv : option (list string * list Lead);
  sent : list request
}.

(** The header of the CSV: the five main fields, then the sorted other
    keys of the rows, which is ["raw"] for the rows [main] builds. *)
Definition csv_fieldnames : list string :=
  ["lead_id"; "name"; "email"; "phone"; "created_time"; "raw"].

Definition write_output (new_leads : list Lead) (mode : output_mode) (w : World) : World :=
  match new_leads with
  | [] => w
  | _ :: _ =>
      match mode with
      | json_mode =>
          mkWorld (sample_file w) (databases w) (Some new_leads) (new_leads_csv w) (sent w)
      | csv_mode =>
          mkWorld (sample_file w) (databases w) (new_leads_json w)
                  (Some (csv_fieldnames, new_leads)) (sent w)
      end
  end.

Definition load_sample (w : World) : result json :=
  match sample_file w with
  | Missing => Ok (JList [])
  | NotJson => Raise JSONDecodeError
  | Parsed content => Ok content
  end.

(** [not lid] for the normalised identifier. *)
Definition no_id (lid : option string) : bool := negb (str_truthy lid).

(** The loop [for raw in raw_leads] of [main], from the locals
    [new_leads] and the store: the batch when the loop completes, or the
    exception that ends it, and the store as the loop leaves it. *)
Fixpoint process (dry : bool) (raw_leads : list json) (new_leads : list Lead)
    (store : gset string) : result (list Lead) * gset string :=
  match raw_leads with
  | [] => (Ok new_leads, store)
  | r :: rest =>
      match normalize_lead r with
      | Raise e => (Raise e, store)
      | Ok normalized =>
          let lid := lead_id normalized in
          if no_id lid then process dry rest new_leads store
          else if negb (truthy (email normalized)) && negb (truthy (phone normalized))
          then process dry rest new_leads store
          else if LeadDB.is_seen (default "" lid) store
          then process dry rest new_leads store
          else
            let new_leads' := (new_leads ++ [normalized])%list in
            if negb dry
            then process dry rest new_leads' (LeadDB.mark_seen (default "" lid) store)
            else process dry rest new_leads' store
      end
  end.

(** How the process ends: [sys.exit(code)] or a normal return (code 0), an
    uncaught exception, or not at all within the fuel given. *)
Inductive outcome : Type :=
| Exit (code : Z)
| Uncaught (e : exn)
| OutOfFuel.

Definition set_database (path : string) (store : gset string) (w : World) : World :=
  mkWorld (sample_file w) (<[path := store]> (databases w)) (new_leads_json w)
          (new_leads_csv w) (sent w).

Definition set_sent (log : list request) (w : World) : World :=
  mkWorld (sample_file w) (databases w) (new_leads_json w) (new_leads_csv w) log.

(** Lines 198-202: [raw_leads], as the items the loop will draw. *)
Definition get_raw_leads (fuel : nat) (cfg : Config) (srv : transport) (args : Args)
    (w : World) : option (result (list json)) * World :=
  if mock_sample args then
    (Some (raw_leads ← load_sample w; py_iter raw_leads), w)
  else
    let '(r, log) := fetch_leads fuel cfg srv (sent w) (ACCESS_TOKEN cfg)
                       (default "" (LEAD_FORM_ID cfg)) (since args) (PAGE_SIZE cfg) in
    (r, set_sent log w).

Definition main (fuel : nat) (cfg : Config) (srv : transport) (args : Args) (w : World)
    : outcome * World :=
  if negb (mock_sample args)
     && (negb (str_truthy (ACCESS_TOKEN cfg)) || negb (str_truthy (LEAD_FORM_ID cfg)))
  then (Exit 1, w)
  else
    let store := LeadDB.init (databases w !! db args) in
    let w := set_database (db args) store w in
    match get_raw_leads fuel cfg srv args w with
    | (None, w) => (OutOfFuel, w)
    | (Some (Raise e), w) => (Uncaught e, w)
    | (Some (Ok raw_leads), w) =>
        match process (dry_run args) raw_leads [] store with
        | (Raise e, store') => (Uncaught e, set_database (db args) store' w)
        | (Ok new_leads, store') =>
            (Exit 0, write_output new_leads (output args) (set_database (db args) store' w))
        end
    end.

End Fetcher.

(* ===================================================================== *)
(** ** Notions used to state the properties                               *)
(* ===================================================================== *)

Module Shapes.
Import LeadDB Fetcher.

(** The three tests of the loop body taken together: the record reaches
    [new_leads.append]. *)
Definition accepts (n : Lead) (store : gset string) : bool :=
  negb (no_id (lead_id n))
  && (truthy (email n) || truthy (phone n))
  && negb (is_seen (default "" (lead_id n)) store).

(** Shapes of a raw record on which every method call of
    [normalize_lead] finds its receiver: a value that is a string or
    falsy; a [values] entry that is falsy, a string, or a list starting
    with such a value; a field entry that is a dict with such a [name] and
    [values]; a [field_data] that is falsy or a list of such entries. *)
Definition str_or_falsy (v : json) : bool :=
  match v with
  | JStr _ => true
  | _ => negb (truthy v)
  end.

Definition values_ok (v : json) : bool :=
  match v with
  | JStr _ => true
  | JList (x :: _) => str_or_falsy x
  | _ => negb (truthy v)
  end.

Definition field_ok (field : json) : bool :=
  match field with
  | JDict kvs =>
      str_or_falsy (dict_get kvs "name" JNull) && values_ok (dict_get kvs "values" JNull)
  | _ => false
  end.

Definition field_data_ok (v : json) : bool :=
  match v with
  | JList fields => forallb field_ok fields
  | _ => negb (truthy v)
  end.

Definition well_shaped (r : json) : bool :=
  match r with
  | JDict kvs => field_data_ok (dict_get kvs "field_data" (JList []))
  | _ => false
  end.

(** The classification table in the words of the specification: a key
    that contains "email" feeds [email] (trimmed and lower-cased), else one
    that contains "name" feeds [name], else one that contains "phone" or
    "mobile" feeds [phone] (both trimmed), else the entry is ignored; a
    target that already holds a non-empty value keeps it. *)
Definition spec_classify (key v : string) (st : Contact) : Contact :=
  if str_contains "email" key then
    mkContact (c_name st) (py_or (c_email st) (JStr (str_lower (str_strip v)))) (c_phone st)
  else if str_contains "name" key then
    mkContact (py_or (c_name st) (JStr (str_strip v))) (c_email st) (c_phone st)
  else if str_contains "phone" key || str_contains "mobile" key then
    mkContact (c_name st) (c_email st) (py_or (c_phone st) (JStr (str_strip v)))
  else st.

(** The fallback in the words of the specification: the first of the two
    top-level keys that holds a truthy value, as it is. *)
Definition spec_fallback (kvs : list (string * json)) (k1 k2 : string) : json :=
  if truthy (dict_get kvs k1 JNull) then dict_get kvs k1 JNull else dict_get kvs k2 JNull.

(** One page of the upstream API: its record list (or no ["data"] key at
    all) and its continuation cursor (or none), and the body
    [{"data": [...], "paging": {"next": ...}}] that carries them. *)
Record page : Type := mkPage {
  records : option (list json);
  next : option string
}.

Definition page_body (p : page) : json :=
  JDict ((match records p with
          | Some rs => [("data", JList rs)]
          | None => []
          end)
         ++ [("paging", JDict (match next p with
                               | Some u => [("next", JStr u)]
                               | None => []
                               end))]).

Definition page_records (p : page) : list json := default [] (records p).

(** The server answers [req] with the first page and status 200, each
    further page is what it answers to a GET of the previous page's cursor
    with no parameters, and only the last page has no cursor. *)
Fixpoint serves (srv : transport) (log : list request) (req : request)
    (pages : list page) : Prop :=
  match pages with
  | [] => False
  | p :: rest =>
      srv log req = Response (mkResponse 200 (Some (page_body p)))
      /\ match rest with
         | [] => next p = None
         | _ :: _ =>
             exists u, next p = Some u /\ u <> ""
                       /\ serves srv (log ++ [req]) (u, None) rest
         end
  end.

(** The requests such a chain calls for after the first one. *)
Definition cursor_requests (pages : list page) : list request :=
  map (fun u => (u, None)) (omap next pages).

(** Sample records and a three-page fixture. *)
Definition lead_a : json :=
  JDict [("id", JStr "1"); ("email", JStr "a@b.c")].

Definition lead_b : json :=
  JDict [("id", JInt 2);
         ("field_data", JList [JDict [("name", JStr "Phone Number");
                                      ("values", JList [JStr " 555 0100 "])]])].

Definition lead_no_contact : json :=
  JDict [("id", JStr "3"); ("field_data", JList [])].

Definition lead_numeric_phone : json :=
  JDict [("id", JStr "4");
         ("field_data", JList [JDict [("name", JStr "phone");
                                      ("values", JList [JInt 5550100])]])].

Definition two_emails : json :=
  JDict [("field_data",
          JList [JDict [("name", JStr "Email Address"); ("values", JList [JStr "A@X.com "])];
                 JDict [("name", JStr "email2"); ("values", JList [JStr "b@y.com"])]])].

(** What [normalize_lead] makes of [lead_a] and [lead_b]. *)
Definition norm_a : Lead :=
  mkLead (Some "1") JNull JNull (JStr "a@b.c") JNull lead_a.

Definition norm_b : Lead :=
  mkLead (Some "2") JNull JNull JNull (JStr "555 0100") lead_b.

Definition sample_config : Config :=
  mkConfig (Some "token") (Some "1234567890") "v16.0" "https://graph.facebook.com"
           "data/seen_leads.db" 100.

Definition three_pages : list page :=
  [mkPage (Some [lead_a]) (Some "https://graph.facebook.com/next?after=1");
   mkPage None (Some "https://graph.facebook.com/next?after=2");
   mkPage (Some [lead_b; lead_no_contact]) None].

(** A server that answers by the number of requests it has seen. *)
Definition three_page_server : transport := fun log _ =>
  match nth_error three_pages (List.length log) with
  | Some p => Response (mkResponse 200 (Some (page_body p)))
  | None => Response (mkResponse 404 None)
  end.

End Shapes.

(* ===================================================================== *)
(** ** The CSV header of [write_output], and fixtures                     *)
(* ===================================================================== *)

Module Csv.
Import Fetcher.

(** A row as [write_output] receives it: the bindings of a dict. *)
Definition row : Type := list (string * json).

(** The dict that [main] appends to [new_leads] for a normalised lead. *)
Definition lead_row (n : Lead) : row :=
  [("lead_id", match lead_id n with Some s => JStr s | None => JNull end);
   ("name", name n);
   ("email", email n);
   ("phone", phone n);
   ("created_time", created_time n);
   ("raw", raw n)].

(** [keys = set()], then [keys.update(l.keys())] for every row. *)
Definition all_keys (rows : list row) : gset string :=
  fold_left (fun keys l => keys ∪ list_to_set (map fst l)) rows ∅.

Definition main_fields : list string :=
  ["lead_id"; "name"; "email"; "phone"; "created_time"].

(** [sorted(...)] on strings: ascending in the order of their characters. *)
Definition py_sorted (l : list string) : list string := merge_sort String.le l.

(** [fieldnames] as the CSV branch builds it: the five main fields, then
    the other keys of the rows in sorted order. *)
Definition fieldnames (rows : list row) : list string :=
  main_fields
  ++ py_sorted (filter (fun k => k ∉ main_fields) (elements (all_keys rows))).

End Csv.

Module Trim.



End Trim.

Module Fixtures.
Import Fetcher Shapes.

(** A server whose every page carries a cursor. *)
Definition endless_server : transport := fun _ _ =>
  Response (mkResponse 200 (Some (page_body (mkPage (Some [lead_a]) (Some "https://x/next"))))).



(** A server that answers with a bare array. *)
Definition array_server : transport := fun _ _ =>
  Response (mkResponse 200 (Some (JList [lead_a; lead_b]))).

Definition mock_args : Args :=
  mkArgs None json_mode "data/seen_leads.db" false None true.

Definition live_args : Args :=
  mkArgs None csv_mode "data/seen_leads.db" false (Some 1) false.

Definition empty_world : World := mkWorld Missing ∅ None None [].

End Fixtures.

(* ===================================================================== *)
(** ** Properties of the seen-store                                       *)
(* ===================================================================== *)

Module LeadDBFacts.
Import LeadDB.

Lemma is_seen_elem (lead_id : string) (db : gset string) :
  is_seen lead_id db = true <-> lead_id ∈ db.
Proof. unfold is_seen. apply bool_decide_eq_true. Qed.

Lemma is_seen_not_elem (lead_id : string) (db : gset string) :
  is_seen lead_id db = false <-> lead_id ∉ db.
Proof. unfold is_seen. apply bool_decide_eq_false. Qed.

Lemma mark_seen_union (lead_id : string) (db : gset string) :
  mark_seen lead_id db = {[lead_id]} ∪ db.
Proof.
  unfold mark_seen. destruct (is_seen lead_id db) eqn:Hseen; [|done].
  apply is_seen_elem in Hseen. apply set_eq. intros x.
  rewrite elem_of_union, elem_of_singleton. split; [tauto|].
  intros [->|?]; done.
Qed.

Lemma mark_seen_elem (x lead_id : string) (db : gset string) :
  x ∈ mark_seen lead_id db <-> x = lead_id \/ x ∈ db.
Proof. by rewrite mark_seen_union, elem_of_union, elem_of_singleton. Qed.

Lemma mark_seen_present (lead_id : string) (db : gset string) :
  lead_id ∈ db -> mark_seen lead_id db = db.
Proof.
  intros Hin. unfold mark_seen.
  apply is_seen_elem in Hin. by rewrite Hin.
Qed.

Lemma run_snoc (calls : list call) (c : call) (db : gset string) :
  run (calls ++ [c]) db = snd (step (run calls db) c).
Proof. unfold run. by rewrite fold_left_app. Qed.

Lemma run_elem (calls : list call) (x : string) (db : gset string) :
  x ∈ run calls db <-> x ∈ db \/ MarkSeen x ∈ calls.
Proof.
  revert db. induction calls as [|c calls IH]; intros db; simpl.
  - split; [by left|]. intros [Hin|Hin]; [done|]. by apply elem_of_nil in Hin.
  - change (run (c :: calls) db) with (run calls (snd (step db c))).
    rewrite IH, elem_of_cons.
    destruct c as [y|y]; simpl.
    + split; [tauto|]. intros [?|[Heq|?]]; [tauto|discriminate Heq|tauto].
    + rewrite mark_seen_elem. split.
      * intros [[->|?]|?]; tauto.
      * intros [?|[Heq|?]]; [tauto| |tauto]. injection Heq as ->. tauto.
Qed.

(** C3. On a store constructed over no earlier database, [is_seen(id)]
    asked after any sequence of [is_seen]/[mark_seen] calls answers [True]
    exactly when [mark_seen(id)] is one of those calls (so [False] for an
    identifier that was never marked); both methods are total, and
    [mark_seen] on an identifier that is already present returns the very
    same table. *)
Theorem is_seen_iff_marked_earlier (calls : list call) (lead_id : string) :
  (fst (step (run calls (init None)) (IsSeen lead_id)) = Bool true
     <-> MarkSeen lead_id ∈ calls)
  /\ (fst (step (run calls (init None)) (IsSeen lead_id)) = Bool false
     <-> MarkSeen lead_id ∉ calls)
  /\ (forall db : gset string,
        is_seen lead_id db = true ->
        step db (MarkSeen lead_id) = (NoneReturned, db)).
Proof.
  assert (Hrun : lead_id ∈ run calls (init None) <-> MarkSeen lead_id ∈ calls).
  { rewrite run_elem. simpl. rewrite elem_of_empty. tauto. }
  unfold step, fst. repeat split.
  - intros Heq. apply Hrun, is_seen_elem. by injection Heq.
  - intros Hin. f_equal. by apply is_seen_elem, Hrun.
  - intros Heq Hin. apply Hrun, is_seen_elem in Hin.
    injection Heq as Heq. change (init None) with (∅ : gset string) in Hin.
    rewrite Hin in Heq. discriminate Heq.
  - intros Hnin. f_equal. apply is_seen_not_elem. by rewrite Hrun.
  - intros db Hseen. f_equal. by apply mark_seen_present, is_seen_elem.
Qed.

Lemma is_seen_iff_marked_earlier_witness :
  (fst (step (run [MarkSeen "17"; IsSeen "4"; MarkSeen "17"] (init None)) (IsSeen "17"))
     = Bool true <-> MarkSeen "17" ∈ [MarkSeen "17"; IsSeen "4"; MarkSeen "17"])
  /\ is_seen "17" {[ "17" ]} = true
  /\ step {[ "17" ]} (MarkSeen "17") = (NoneReturned, {[ "17" ]}).
Proof.
  pose proof (is_seen_iff_marked_earlier [MarkSeen "17"; IsSeen "4"; MarkSeen "17"] "17")
    as (Hyes & _ & Hsame).
  split; [exact Hyes|].
  split; [reflexivity|].
  apply Hsame. reflexivity.
Defined.

End LeadDBFacts.

(* ===================================================================== *)
(** ** Properties of the pipeline loop                                    *)
(* ===================================================================== *)

Module PipelineFacts.
Import LeadDB LeadDBFacts Fetcher Shapes.

Lemma process_cons (dry : bool) (r : json) (rest : list json) (acc : list Lead)
    (store : gset string) :
  process dry (r :: rest) acc store =
  match normalize_lead r with
  | Raise e => (Raise e, store)
  | Ok n =>
      if accepts n store
      then process dry rest (acc ++ [n])
             (if dry then store else mark_seen (default "" (lead_id n)) store)
      else process dry rest acc store
  end.
Proof.
  cbn [process]. destruct (normalize_lead r) as [n|e]; [|done].
  unfold accepts.
  destruct (no_id (lead_id n)); [done|].
  destruct (truthy (email n)), (truthy (phone n));
    destruct (is_seen (default "" (lead_id n)) store); destruct dry; done.
Qed.

(** The accumulator is only ever extended. *)
Lemma process_acc (dry : bool) (raws : list json) (acc : list Lead) (store : gset string) :
  process dry raws acc store =
  (match fst (process dry raws [] store) with
   | Ok new => Ok (acc ++ new)
   | Raise e => Raise e
   end, snd (process dry raws [] store)).
Proof.
  revert acc store. induction raws as [|r rest IH]; intros acc store.
  - simpl. by rewrite app_nil_r.
  - rewrite !process_cons. destruct (normalize_lead r) as [n|e]; [|done].
    destruct (accepts n store); [|apply IH].
    rewrite IH. rewrite (IH ([] ++ [n])). simpl.
    destruct (fst (process dry rest [] _)); [|done].
    by rewrite <- app_assoc.
Qed.

Lemma process_dry_store (raws : list json) (acc : list Lead) (store : gset string) :
  snd (process true raws acc store) = store.
Proof.
  revert acc. induction raws as [|r rest IH]; intros acc; [done|].
  rewrite process_cons. destruct (normalize_lead r) as [n|e]; [|done].
  destruct (accepts n store); apply IH.
Qed.

Lemma process_store_mono (dry : bool) (raws : list json) (acc : list Lead)
    (store : gset string) :
  store ⊆ snd (process dry raws acc store).
Proof.
  revert acc store. induction raws as [|r rest IH]; intros acc store; [done|].
  rewrite process_cons. destruct (normalize_lead r) as [n|e]; [|done].
  destruct (accepts n store); [|apply IH].
  etrans; [|apply IH]. destruct dry; [done|].
  intros x Hx. apply mark_seen_elem. by right.
Qed.

Lemma accepts_seen (n : Lead) (store : gset string) :
  default "" (lead_id n) ∈ store -> accepts n store = false.
Proof.
  intros Hin. unfold accepts. apply is_seen_elem in Hin. rewrite Hin.
  by rewrite andb_false_r.
Qed.

Lemma accepts_mono (n : Lead) (store store' : gset string) :
  store ⊆ store' -> accepts n store = false -> accepts n store' = false.
Proof.
  intros Hsub. unfold accepts.
  destruct (is_seen (default "" (lead_id n)) store) eqn:Hseen.
  - apply is_seen_elem, Hsub, is_seen_elem in Hseen. rewrite Hseen.
    by rewrite !andb_false_r.
  - rewrite andb_true_r. intros ->. done.
Qed.

Lemma accepts_inv (n : Lead) (store : gset string) :
  accepts n store = true ->
  exists lid, lead_id n = Some lid /\ lid <> "" /\ (lid ∉ store)
              /\ (truthy (email n) = true \/ truthy (phone n) = true).
Proof.
  unfold accepts, no_id. intros H.
  apply andb_prop in H as [H Hseen]. apply andb_prop in H as [Hid Hcontact].
  destruct (lead_id n) as [lid|]; [|done]. simpl in *.
  exists lid. split; [done|]. split.
  - intros ->. done.
  - split.
    + apply is_seen_not_elem. by destruct (is_seen lid store).
    + by apply orb_prop.
Qed.

(** Once a run with marking has completed, any run over the same input on
    a store that holds at least the marks it left accepts nothing. *)
Lemma process_again (raws : list json) :
  forall (acc : list Lead) (store : gset string) (batch : list Lead) (store' : gset string),
    process false raws acc store = (Ok batch, store') ->
    forall (dry2 : bool) (acc2 : list Lead) (store2 : gset string),
      store' ⊆ store2 -> process dry2 raws acc2 store2 = (Ok acc2, store2).
Proof.
  induction raws as [|r rest IH]; intros acc store batch store' Hrun dry2 acc2 store2 Hsub;
    [done|].
  rewrite process_cons in Hrun. rewrite process_cons.
  destruct (normalize_lead r) as [n|e]; [|done].
  destruct (accepts n store) eqn:Hacc.
  - pose proof (process_store_mono false rest (acc ++ [n])
                  (mark_seen (default "" (lead_id n)) store)) as Hmono.
    rewrite Hrun in Hmono. simpl in Hmono.
    rewrite accepts_seen; [by eapply IH|].
    apply Hsub, Hmono, mark_seen_elem. by left.
  - pose proof (process_store_mono false rest acc store) as Hmono.
    rewrite Hrun in Hmono. simpl in Hmono.
    rewrite (accepts_mono n store store2); [by eapply IH| |done].
    by etrans.
Qed.

(** What a completed run with marking accepts and marks. *)
Lemma process_marking_batch (raws : list json) :
  forall (store : gset string) (batch : list Lead) (store' : gset string),
    process false raws [] store = (Ok batch, store') ->
    NoDup (lead_id <$> batch)
    /\ (forall s, s ∈ store' <-> s ∈ store \/ Some s ∈ lead_id <$> batch)
    /\ (forall s, Some s ∈ lead_id <$> batch -> s ∉ store).
Proof.
  induction raws as [|r rest IH]; intros store batch store' Hrun.
  - injection Hrun as <- <-. simpl. split; [constructor|].
    split; [|intros s Hs; by apply elem_of_nil in Hs].
    intros s. rewrite elem_of_nil. tauto.
  - rewrite process_cons in Hrun.
    destruct (normalize_lead r) as [n|e]; [|done].
    destruct (accepts n store) eqn:Hacc; [|by apply IH].
    apply accepts_inv in Hacc as (lid & Hlid & _ & Hfresh & _).
    rewrite Hlid in Hrun. simpl in Hrun.
    rewrite process_acc in Hrun.
    destruct (process false rest [] (mark_seen lid store)) as [[new|e] st] eqn:Hrest;
      simpl in Hrun; [|done].
    injection Hrun as <- <-.
    destruct (IH _ _ _ Hrest) as (Hnodup & Hstore & Hnew).
    simpl. rewrite Hlid. split; [|split].
    + apply NoDup_cons. split; [|done].
      intros Hin. apply (Hnew lid Hin), mark_seen_elem. by left.
    + intros s. rewrite Hstore, mark_seen_elem, elem_of_cons.
      split.
      * intros [[->|?]|?]; [right; by left|by left|right; by right].
      * intros [?|[Heq|?]]; [left; by right| |by right].
        injection Heq as ->. left. by left.
    + intros s [Heq|Hin]%elem_of_cons.
      * by injection Heq as ->.
      * intros Hs. apply (Hnew s Hin), mark_seen_elem. by right.
Qed.

(** What a completed dry run accepts was not in the store. *)
Lemma process_dry_fresh (raws : list json) (store : gset string) (batch : list Lead) :
  fst (process true raws [] store) = Ok batch ->
  forall s, Some s ∈ lead_id <$> batch -> s ∉ store.
Proof.
  revert batch. induction raws as [|r rest IH]; intros batch Hrun s Hs.
  - injection Hrun as <-. by apply elem_of_nil in Hs.
  - rewrite process_cons in Hrun.
    destruct (normalize_lead r) as [n|e]; [|done].
    destruct (accepts n store) eqn:Hacc; [|by eapply IH].
    apply accepts_inv in Hacc as (lid & Hlid & _ & Hfresh & _).
    rewrite process_acc in Hrun. simpl in Hrun.
    destruct (fst (process true rest [] store)) as [new|e] eqn:Hrest; [|done].
    injection Hrun as <-. simpl in Hs. rewrite Hlid in Hs.
    apply elem_of_cons in Hs as [Heq|Hin].
    + by injection Heq as ->.
    + by eapply IH.
Qed.

(** A dry run whose batch has pairwise distinct identifiers, none of them
    in the (possibly larger) store of a marking run, is matched by it. *)
Lemma process_dry_then_marking (raws : list json) :
  forall (store store2 : gset string) (batch : list Lead),
    fst (process true raws [] store) = Ok batch ->
    store ⊆ store2 ->
    (forall s, Some s ∈ lead_id <$> batch -> s ∉ store2) ->
    NoDup (lead_id <$> batch) ->
    fst (process false raws [] store2) = Ok batch.
Proof.
  induction raws as [|r rest IH]; intros store store2 batch Hdry Hsub Hfresh Hnodup;
    [done|].
  rewrite process_cons in Hdry. rewrite process_cons.
  destruct (normalize_lead r) as [n|e]; [|done].
  destruct (accepts n store) eqn:Hacc.
  - rewrite process_acc in Hdry. simpl in Hdry.
    destruct (fst (process true rest [] store)) as [new|e] eqn:Hrest; [|done].
    injection Hdry as <-.
    pose proof Hacc as (lid & Hlid & _ & _ & _)%accepts_inv.
    simpl in Hfresh, Hnodup. rewrite Hlid in Hfresh, Hnodup.
    apply NoDup_cons in Hnodup as [Hnotin Hnodup].
    assert (Hacc2 : accepts n store2 = true).
    { unfold accepts in *. rewrite Hlid in *. simpl in *.
      apply andb_prop in Hacc as [-> _]. simpl.
      apply negb_true_iff, is_seen_not_elem, Hfresh. by left. }
    rewrite Hacc2, Hlid, process_acc. simpl.
    erewrite (IH store (mark_seen lid store2) new); [done|done| | |done].
    + intros x Hx. apply mark_seen_elem. right. by apply Hsub.
    + intros s Hs [->|Hin]%mark_seen_elem; [done|].
      apply (Hfresh s); [by right|done].
  - rewrite (accepts_mono n store store2 Hsub Hacc). by eapply IH.
Qed.

(** C1. When a run with [dry_run] off has gone through its whole input, a
    second run over the same input on the store the first one left accepts
    no record (and leaves that store as it is), whatever its own
    [dry_run] flag. *)
Theorem second_run_accepts_nothing (raw_leads : list json) (store : gset string)
    (batch : list Lead) (store' : gset string) (dry2 : bool) :
  process false raw_leads [] store = (Ok batch, store') ->
  process dry2 raw_leads [] store' = (Ok [], store').
Proof.
  intros Hrun. by eapply process_again.
Qed.

(** C2. A record whose normalised identifier is absent or empty, or whose
    normalised [email] and [phone] are both absent or empty, changes
    neither the batch nor the store: the loop goes on with the next record
    from the same [new_leads] and the same store. *)
Theorem invalid_record_skipped (dry : bool) (r : json) (rest : list json)
    (new_leads : list Lead) (store : gset string) (n : Lead) :
  normalize_lead r = Ok n ->
  lead_id n = None \/ lead_id n = Some ""
  \/ ((email n = JNull \/ email n = JStr "") /\ (phone n = JNull \/ phone n = JStr "")) ->
  process dry (r :: rest) new_leads store = process dry rest new_leads store.
Proof.
  intros Hnorm Hbad. rewrite process_cons, Hnorm.
  assert (Hrej : accepts n store = false); [|by rewrite Hrej].
  unfold accepts.
  destruct Hbad as [->| [->| [[-> | ->] [-> | ->]]]]; try done;
    simpl; by rewrite andb_false_r.
Qed.

Lemma second_run_accepts_nothing_witness :
  process false [lead_a; lead_no_contact; lead_b; lead_a] [] ∅
    = (Ok [norm_a; norm_b], {[ "1"; "2" ]})
  /\ process true [lead_a; lead_no_contact; lead_b; lead_a] [] {[ "1"; "2" ]}
    = (Ok [], {[ "1"; "2" ]}).
Proof.
  assert (Hfirst : process false [lead_a; lead_no_contact; lead_b; lead_a] [] ∅
                   = (Ok [norm_a; norm_b], {[ "1"; "2" ]})) by (vm_compute; reflexivity).
  split; [exact Hfirst|].
  exact (second_run_accepts_nothing _ _ _ _ true Hfirst).
Defined.

Lemma invalid_record_skipped_witness :
  normalize_lead lead_no_contact
    = Ok (mkLead (Some "3") JNull JNull JNull JNull lead_no_contact)
  /\ process false [lead_no_contact; lead_a] [] ∅ = process false [lead_a] [] ∅.
Proof.
  assert (Hnorm : normalize_lead lead_no_contact
                  = Ok (mkLead (Some "3") JNull JNull JNull JNull lead_no_contact))
    by reflexivity.
  split; [exact Hnorm|].
  apply (invalid_record_skipped false lead_no_contact [lead_a] [] ∅ _ Hnorm).
  right. right. simpl. split; left; reflexivity.
Defined.

(** C9. In a completed run with [dry_run] off no two accepted records
    carry the same identifier, whatever the input repeats: every accepted
    identifier was not in the store before and is in it afterwards, and
    the store gains exactly the accepted identifiers. *)
Theorem accepted_once_per_run (raw_leads : list json) (store : gset string)
    (batch : list Lead) (store' : gset string) :
  process false raw_leads [] store = (Ok batch, store') ->
  NoDup (lead_id <$> batch)
  /\ (forall s, s ∈ store' <-> s ∈ store \/ Some s ∈ lead_id <$> batch)
  /\ (forall s, Some s ∈ lead_id <$> batch -> s ∉ store).
Proof. apply process_marking_batch. Qed.

Lemma accepted_once_per_run_witness :
  process false [lead_a; lead_a; lead_b; lead_a] [] ∅ = (Ok [norm_a; norm_b], {[ "1"; "2" ]})
  /\ NoDup (lead_id <$> [norm_a; norm_b]).
Proof.
  assert (Hrun : process false [lead_a; lead_a; lead_b; lead_a] [] ∅
                 = (Ok [norm_a; norm_b], {[ "1"; "2" ]})) by (vm_compute; reflexivity).
  split; [exact Hrun|].
  exact (proj1 (accepted_once_per_run _ _ _ _ Hrun)).
Defined.

(** C8, as the claim states it, fails: on an input that repeats a record
    the dry run accepts both copies and the marking run only the first. *)
Lemma dry_run_batch_differs :
  fst (process true [lead_a; lead_a] [] ∅) = Ok [norm_a; norm_a]
  /\ fst (process false [lead_a; lead_a] [] ∅) = Ok [norm_a]
  /\ fst (process true [lead_a; lead_a] [] ∅) <> fst (process false [lead_a; lead_a] [] ∅).
Proof.
  split; [reflexivity|]. split; [reflexivity|].
  intros Heq. vm_compute in Heq. discriminate Heq.
Qed.

(** C8, amended. A dry run leaves the store exactly as it found it,
    whatever its input; and when it completes, its batch is the batch of
    the marking run on the same input and store if and only if no
    identifier occurs twice in it. *)
Theorem dry_run_same_batch_iff_distinct (raw_leads : list json) (store : gset string) :
  snd (process true raw_leads [] store) = store
  /\ (forall batch : list Lead,
        fst (process true raw_leads [] store) = Ok batch ->
        (fst (process false raw_leads [] store) = Ok batch <-> NoDup (lead_id <$> batch))).
Proof.
  split; [apply process_dry_store|]. intros batch Hdry. split.
  - intros Hwet.
    destruct (process false raw_leads [] store) as [res store'] eqn:Hrun.
    simpl in Hwet. subst res.
    by destruct (process_marking_batch _ _ _ _ Hrun) as [Hnodup _].
  - intros Hnodup.
    eapply process_dry_then_marking; [exact Hdry|done| |done].
    by eapply process_dry_fresh.
Qed.

Lemma dry_run_same_batch_iff_distinct_witness :
  fst (process true [lead_a; lead_no_contact; lead_b] [] {[ "7" ]}) = Ok [norm_a; norm_b]
  /\ snd (process true [lead_a; lead_no_contact; lead_b] [] {[ "7" ]}) = {[ "7" ]}
  /\ fst (process false [lead_a; lead_no_contact; lead_b] [] {[ "7" ]}) = Ok [norm_a; norm_b].
Proof.
  assert (Hdry : fst (process true [lead_a; lead_no_contact; lead_b] [] {[ "7" ]})
                 = Ok [norm_a; norm_b]) by reflexivity.
  destruct (dry_run_same_batch_iff_distinct [lead_a; lead_no_contact; lead_b] {[ "7" ]})
    as [Hstore Hiff].
  split; [exact Hdry|]. split; [exact Hstore|].
  apply (Hiff _ Hdry). cbn. apply NoDup_cons. split; [|apply NoDup_singleton].
  intros Hin%list_elem_of_singleton. discriminate Hin.
Defined.

End PipelineFacts.

(* ===================================================================== *)
(** ** Properties of [normalize_lead]                                     *)
(* ===================================================================== *)

Module NormalizeFacts.
Import Fetcher Shapes.


Lemma append_cons (x : ascii) (a b : string) : String x a +:+ b = String x (a +:+ b).
Proof. reflexivity. Qed.

Lemma append_assoc (a b c : string) : (a +:+ b) +:+ c = a +:+ (b +:+ c).
Proof.
  induction a as [|x a IH]; [done|]. by rewrite !append_cons, IH.
Qed.

Lemma prefix_spec (sub s : string) :
  String.prefix sub s = true <-> exists t, s = sub +:+ t.
Proof.
  revert s. induction sub as [|c sub IH]; intros s.
  - split; [eauto|]. by destruct s.
  - destruct s as [|d s]; simpl.
    + split; [done|]. intros [t Ht]. discriminate Ht.
    + destruct (Ascii.ascii_dec c d) as [->|Hne].
      * rewrite IH. split; intros [t Ht]; exists t.
        -- by rewrite append_cons, Ht.
        -- rewrite append_cons in Ht. congruence.
      * split; [done|]. intros [t Ht]. rewrite append_cons in Ht. congruence.
Qed.

Lemma str_contains_spec (sub s : string) :
  str_contains sub s = true <-> exists p t, s = p +:+ sub +:+ t.
Proof.
  induction s as [|c s IH]; cbn [str_contains];
    rewrite orb_true_iff, prefix_spec.
  - split.
    + intros [[t Ht]|?]; [|done]. by exists "", t.
    + intros (p & t & Ht). left. destruct p; [by exists t|discriminate Ht].
  - rewrite IH. split.
    + intros [[t Ht]|(p & t & Ht)]; [by exists "", t|].
      exists (String c p), t. by rewrite append_cons, Ht.
    + intros (p & t & Ht). destruct p as [|d p]; [left; by exists t|].
      right. exists p, t. rewrite append_cons in Ht. congruence.
Qed.

(** A key that has a longer word ending in [sub] has [sub]. *)
Lemma str_contains_suffix (pre sub s : string) :
  str_contains (pre +:+ sub) s = true -> str_contains sub s = true.
Proof.
  rewrite !str_contains_spec. intros (p & t & ->).
  exists (p +:+ pre), t. by rewrite !append_assoc.
Qed.

Lemma name_subsumes (key : string) :
  str_contains "name" key
  || str_contains "full_name" key || str_contains "first_name" key
  = str_contains "name" key.
Proof.
  destruct (str_contains "name" key) eqn:Hname; [done|]. simpl.
  destruct (str_contains "full_name" key) eqn:Hfull.
  { apply (str_contains_suffix "full_" "name") in Hfull. congruence. }
  destruct (str_contains "first_name" key) eqn:Hfirst; [|done].
  apply (str_contains_suffix "first_" "name") in Hfirst. congruence.
Qed.

Lemma truthy_JStr (s : string) : truthy (JStr s) = true <-> s <> "".
Proof.
  simpl. rewrite negb_true_iff. apply String.eqb_neq.
Qed.

Lemma or_stripped_ok (x : json) (v : string) (post : string -> string) :
  or_stripped x (JStr v) post = Ok (py_or x (JStr (post (str_strip v)))).
Proof. unfold or_stripped, py_or. by destruct (truthy x). Qed.

(** An entry with a string name and a non-empty string as its value (bare,
    or first in a list) is classified as the table says. *)
Lemma field_step_classify (st : Contact) (f : list (string * json)) (nm v : string)
    (vs : list json) :
  dict_get f "name" JNull = JStr nm ->
  dict_get f "values" JNull = JStr v \/ dict_get f "values" JNull = JList (JStr v :: vs) ->
  v <> "" ->
  field_step st (JDict f) = Ok (spec_classify (str_lower nm) v st).
Proof.
  intros Hname Hvalues Hv. apply truthy_JStr in Hv.
  unfold field_step, get. cbn [mbind result_bind]. rewrite Hname.
  assert (Hkey : py_or (JStr nm) (JStr "") = JStr nm \/ (nm = "" /\ py_or (JStr nm) (JStr "") = JStr "")).
  { unfold py_or. destruct (truthy (JStr nm)) eqn:Hnm; [by left|right].
    split; [|done]. simpl in Hnm. apply negb_false_iff, String.eqb_eq in Hnm. done. }
  assert (Hlow : match py_or (JStr nm) (JStr "") with
                 | JStr s => Ok (str_lower s)
                 | _ => Raise AttributeError
                 end = Ok (str_lower nm)).
  { destruct Hkey as [->|[-> ->]]; done. }
  rewrite Hlow. clear Hkey Hlow.
  assert (Hval : (let vals := py_or (dict_get f "values" JNull) (JList []) in
                  let vals := match vals with JStr _ => JList [vals] | _ => vals end in
                  if truthy vals then first_item vals else Ok JNull) = Ok (JStr v)).
  { destruct Hvalues as [-> | ->]; unfold py_or.
    - rewrite Hv. done.
    - done. }
  cbn zeta in Hval. rewrite Hval. cbn [mbind result_bind].
  rewrite Hv. cbn [negb]. rewrite name_subsumes. unfold spec_classify.
  rewrite !or_stripped_ok.
  destruct (str_contains "email" (str_lower nm)); [done|].
  destruct (str_contains "name" (str_lower nm)); [done|].
  destruct (str_contains "phone" (str_lower nm) || str_contains "mobile" (str_lower nm)); done.
Qed.

(** Splits a hypothesis [H] on the result of a sequence of binds and
    tests, dropping the branches that raise. *)
Ltac unbind H :=
  repeat match type of H with
         | mbind _ ?m = _ =>
             let E := fresh "E" in
             destruct m eqn:E; cbn [mbind result_bind] in H; try discriminate H
         | (if ?b then _ else _) = _ =>
             let E := fresh "E" in
             destruct b eqn:E; try discriminate H
         end.

Lemma or_stripped_keeps (x val e : json) (post : string -> string) :
  or_stripped x val post = Ok e -> truthy x = true -> e = x.
Proof.
  unfold or_stripped. intros H Hx. rewrite Hx in H. by injection H.
Qed.

(** A target that holds a truthy value is not changed by an entry. *)
Lemma field_step_keeps (st st' : Contact) (field : json) :
  field_step st field = Ok st' ->
  (truthy (c_name st) = true -> c_name st' = c_name st)
  /\ (truthy (c_email st) = true -> c_email st' = c_email st)
  /\ (truthy (c_phone st) = true -> c_phone st' = c_phone st).
Proof.
  unfold field_step. intros H. unbind H; injection H as <-; simpl;
    repeat split; try done; intros Hset; by eapply or_stripped_keeps.
Qed.

Lemma field_step_truthy (st st' : Contact) (field : json) :
  field_step st field = Ok st' ->
  (truthy (c_name st) = true -> truthy (c_name st') = true)
  /\ (truthy (c_email st) = true -> truthy (c_email st') = true)
  /\ (truthy (c_phone st) = true -> truthy (c_phone st') = true).
Proof.
  intros H. destruct (field_step_keeps _ _ _ H) as (Hn & He & Hp).
  repeat split; intros Hset; [rewrite Hn|rewrite He|rewrite Hp]; done.
Qed.

Lemma field_loop_keeps (fields : list json) :
  forall st st' : Contact,
    field_loop fields st = Ok st' ->
    (truthy (c_name st) = true -> c_name st' = c_name st)
    /\ (truthy (c_email st) = true -> c_email st' = c_email st)
    /\ (truthy (c_phone st) = true -> c_phone st' = c_phone st).
Proof.
  induction fields as [|field rest IH]; intros st st' H; simpl in H.
  - by injection H as <-.
  - destruct (field_step st field) as [st1|e] eqn:Hstep;
      cbn [mbind result_bind] in H; [|done].
    destruct (field_step_keeps _ _ _ Hstep) as (Hn & He & Hp).
    destruct (field_step_truthy _ _ _ Hstep) as (Tn & Te & Tp).
    destruct (IH _ _ H) as (In & Ie & Ip).
    repeat split; intros Hset.
    + by rewrite In, Hn; auto.
    + by rewrite Ie, He; auto.
    + by rewrite Ip, Hp; auto.
Qed.

(** C4. Each field entry is classified by substring containment on its
    lower-cased name, in the order email, name, phone/mobile, and feeds the
    target only while the target has no non-empty value; a target that
    holds a non-empty value is kept through all later entries; so the two
    entries "Email Address" = "A@X.com " and "email2" = "b@y.com" give
    [email == "a@x.com"]. *)
Theorem first_match_sticks :
  (forall (st : Contact) (f : list (string * json)) (nm v : string) (vs : list json),
      dict_get f "name" JNull = JStr nm ->
      dict_get f "values" JNull = JStr v \/ dict_get f "values" JNull = JList (JStr v :: vs) ->
      v <> "" ->
      field_step st (JDict f) = Ok (spec_classify (str_lower nm) v st))
  /\ (forall (fields : list json) (st st' : Contact),
        field_loop fields st = Ok st' ->
        (truthy (c_name st) = true -> c_name st' = c_name st)
        /\ (truthy (c_email st) = true -> c_email st' = c_email st)
        /\ (truthy (c_phone st) = true -> c_phone st' = c_phone st))
  /\ normalize_lead two_emails
     = Ok (mkLead None JNull JNull (JStr "a@x.com") JNull two_emails).
Proof.
  split; [apply field_step_classify|].
  split; [intros fields; apply field_loop_keeps|].
  reflexivity.
Qed.

Lemma first_match_sticks_witness :
  field_step (mkContact JNull JNull JNull)
    (JDict [("name", JStr "Email Address"); ("values", JList [JStr "A@X.com "])])
  = Ok (mkContact JNull (JStr "a@x.com") JNull)
  /\ field_loop [JDict [("name", JStr "email2"); ("values", JList [JStr "b@y.com"])];
                 JDict [("name", JStr "E-Mail"); ("values", JStr "c@z.com")]]
       (mkContact JNull (JStr "a@x.com") JNull)
     = Ok (mkContact JNull (JStr "a@x.com") JNull)
  /\ c_email (mkContact JNull (JStr "a@x.com") JNull) = JStr "a@x.com".
Proof.
  destruct first_match_sticks as (Hclass & Hkeep & _).
  split.
  - apply (Hclass (mkContact JNull JNull JNull)
             [("name", JStr "Email Address"); ("values", JList [JStr "A@X.com "])]
             "Email Address" "A@X.com " []);
      [reflexivity|right; reflexivity|discriminate].
  - assert (Hloop : field_loop
                      [JDict [("name", JStr "email2"); ("values", JList [JStr "b@y.com"])];
                       JDict [("name", JStr "E-Mail"); ("values", JStr "c@z.com")]]
                      (mkContact JNull (JStr "a@x.com") JNull)
                    = Ok (mkContact JNull (JStr "a@x.com") JNull)) by reflexivity.
    split; [exact Hloop|].
    exact (proj1 (proj2 (Hkeep _ _ _ Hloop)) eq_refl).
Defined.

(** *** Totality on well-shaped records *)

Lemma key_total (nm : json) :
  str_or_falsy nm = true ->
  exists key, match py_or nm (JStr "") with
              | JStr s => Ok (str_lower s)
              | _ => Raise AttributeError
              end = Ok key.
Proof.
  unfold py_or. intros Hnm.
  destruct (truthy nm) eqn:Ht; [|by eexists].
  destruct nm; simpl in Hnm, Ht; try discriminate Ht;
    try (rewrite Ht in Hnm; simpl in Hnm; discriminate Hnm).
  by eexists.
Qed.

Lemma val_total (values : json) :
  values_ok values = true ->
  exists val,
    (let vals := py_or values (JList []) in
     let vals := match vals with JStr _ => JList [vals] | _ => vals end in
     if truthy vals then first_item vals else Ok JNull) = Ok val
    /\ str_or_falsy val = true.
Proof.
  unfold py_or. intros Hok. cbn zeta.
  destruct (truthy values) eqn:Ht.
  - destruct values as [|b|z|r|s|[|x xs]|kvs]; simpl in Hok, Ht;
      try discriminate Ht;
      try (rewrite Ht in Hok; simpl in Hok; discriminate Hok).
    + by exists (JStr s).
    + by exists x.
  - by exists JNull.
Qed.

Lemma or_stripped_total (x val : json) (post : string -> string) :
  str_or_falsy val = true -> truthy val = true ->
  exists e, or_stripped x val post = Ok e.
Proof.
  unfold or_stripped. intros Hok Ht.
  destruct (truthy x); [by eexists|].
  destruct val; simpl in Hok, Ht; try discriminate Ht;
    try (rewrite Ht in Hok; simpl in Hok; discriminate Hok).
  by eexists.
Qed.

Lemma field_step_total (st : Contact) (field : json) :
  field_ok field = true -> exists st', field_step st field = Ok st'.
Proof.
  destruct field as [| | | | | |kvs]; try done. simpl.
  intros [Hname Hvalues]%andb_prop.
  destruct (key_total _ Hname) as [key Hkey].
  destruct (val_total _ Hvalues) as (val & Hval & Hstr).
  unfold field_step, get. cbn [mbind result_bind].
  rewrite Hkey. cbn [mbind result_bind].
  cbn zeta in Hval. rewrite Hval. cbn [mbind result_bind].
  destruct (truthy val) eqn:Ht; cbn [negb]; [|by eexists].
  destruct (or_stripped_total (c_email st) val str_lower Hstr Ht) as [e ->].
  destruct (or_stripped_total (c_name st) val id Hstr Ht) as [n ->].
  destruct (or_stripped_total (c_phone st) val id Hstr Ht) as [p ->].
  cbn [mbind result_bind].
  repeat match goal with |- context [if ?b then _ else _] => destruct b end;
    by eexists.
Qed.

Lemma field_loop_total (fields : list json) :
  forallb field_ok fields = true ->
  forall st, exists st', field_loop fields st = Ok st'.
Proof.
  induction fields as [|field rest IH]; intros Hall st; [by eexists|].
  simpl in Hall. apply andb_prop in Hall as [Hfield Hrest].
  destruct (field_step_total st field Hfield) as [st1 Hstep].
  simpl. rewrite Hstep. cbn [mbind result_bind]. by apply IH.
Qed.

Lemma field_pass_total (kvs : list (string * json)) :
  field_data_ok (dict_get kvs "field_data" (JList [])) = true ->
  exists st, field_pass (JDict kvs) = Ok st.
Proof.
  unfold field_pass, get, py_or. cbn [mbind result_bind]. intros Hok.
  destruct (truthy (dict_get kvs "field_data" (JList []))) eqn:Ht.
  - destruct (dict_get kvs "field_data" (JList [])) as [|b|z|r|s|fields|d];
      simpl in Hok, Ht; try discriminate Ht;
      try (rewrite Ht in Hok; simpl in Hok; discriminate Hok).
    cbn [py_iter mbind result_bind]. by apply field_loop_total.
  - by eexists.
Qed.

(** With no [field_data] the loop has nothing to read. *)
Lemma field_pass_no_field_data (kvs : list (string * json)) :
  lookup_key "field_data" kvs = None ->
  field_pass (JDict kvs) = Ok (mkContact JNull JNull JNull).
Proof.
  unfold field_pass, get, dict_get. by intros ->.
Qed.

Lemma normalize_lead_unfold (kvs : list (string * json)) (st : Contact) :
  field_pass (JDict kvs) = Ok st ->
  normalize_lead (JDict kvs) =
  Ok {| lead_id := match dict_get kvs "id" JNull with
                   | JNull => None
                   | v => Some (py_str v)
                   end;
        created_time := dict_get kvs "created_time" JNull;
        name := py_or (py_or (c_name st) (dict_get kvs "name" JNull))
                      (dict_get kvs "full_name" JNull);
        email := py_or (py_or (c_email st) (dict_get kvs "email" JNull))
                       (dict_get kvs "email_address" JNull);
        phone := py_or (py_or (c_phone st) (dict_get kvs "phone" JNull))
                       (dict_get kvs "phone_number" JNull);
        raw := JDict kvs |}.
Proof.
  intros Hpass. unfold normalize_lead, get. cbn [mbind result_bind].
  rewrite Hpass. cbn [mbind result_bind].
  by destruct (dict_get kvs "id" JNull).
Qed.

(** C5, as the claim states it, fails: a phone number given as a number
    rather than as text makes [val.strip()] raise. *)
Lemma normalize_lead_raises :
  normalize_lead lead_numeric_phone = Raise AttributeError.
Proof. reflexivity. Qed.

(** C5, amended. [normalize_lead] is a function of the raw record alone,
    and it returns a record (it does not raise) whenever the input is an
    object whose [field_data] is absent, falsy or a list of objects, each
    with a [name] that is absent, falsy or a string and a [values] that is
    absent, falsy, a string, or a list whose first element is falsy or a
    string.  The result keeps the input as [raw], and data that is missing
    gives [None]: no [id], no [created_time]; no [field_data] and none of
    the fallback keys, no [email], [phone] or [name]. *)
Theorem normalize_lead_total_on_well_shaped (r : json) :
  well_shaped r = true ->
  exists (kvs : list (string * json)) (n : Lead),
    r = JDict kvs
    /\ normalize_lead r = Ok n
    /\ raw n = r
    /\ (lookup_key "id" kvs = None -> lead_id n = None)
    /\ (lookup_key "created_time" kvs = None -> created_time n = JNull)
    /\ (lookup_key "field_data" kvs = None ->
        (lookup_key "email" kvs = None -> lookup_key "email_address" kvs = None ->
         email n = JNull)
        /\ (lookup_key "phone" kvs = None -> lookup_key "phone_number" kvs = None ->
            phone n = JNull)
        /\ (lookup_key "name" kvs = None -> lookup_key "full_name" kvs = None ->
            name n = JNull)).
Proof.
  destruct r as [| | | | | |kvs]; try done. simpl. intros Hok.
  destruct (field_pass_total kvs Hok) as [st Hpass].
  exists kvs. eexists. split; [done|].
  split; [by apply normalize_lead_unfold|]. simpl.
  split; [done|].
  unfold dict_get.
  split; [by intros ->|]. split; [by intros ->|].
  intros Hfd. rewrite (field_pass_no_field_data kvs Hfd) in Hpass.
  injection Hpass as <-. simpl.
  repeat split; by intros -> ->.
Qed.

Lemma normalize_lead_total_on_well_shaped_witness :
  well_shaped lead_b = true
  /\ exists n : Lead, normalize_lead lead_b = Ok n /\ raw n = lead_b.
Proof.
  split; [reflexivity|].
  destruct (normalize_lead_total_on_well_shaped lead_b eq_refl)
    as (kvs & n & _ & Hnorm & Hraw & _).
  exists n. split; [exact Hnorm|exact Hraw].
Defined.

(** C6. After the field loop, a target that is still unset (falsy) takes
    the value under the first of its two top-level keys that holds a
    truthy value, else whatever the second key holds ([None] when it is
    missing): [email] from "email" then "email_address", [phone] from
    "phone" then "phone_number", [name] from "name" then "full_name".  The
    value is the very value of the raw record, neither trimmed nor
    lower-cased.  A target that the loop has set keeps its value. *)
Theorem fallback_keys_in_order (kvs : list (string * json)) (st : Contact) :
  field_pass (JDict kvs) = Ok st ->
  exists n : Lead,
    normalize_lead (JDict kvs) = Ok n
    /\ email n = (if truthy (c_email st) then c_email st
                  else spec_fallback kvs "email" "email_address")
    /\ phone n = (if truthy (c_phone st) then c_phone st
                  else spec_fallback kvs "phone" "phone_number")
    /\ name n = (if truthy (c_name st) then c_name st
                 else spec_fallback kvs "name" "full_name").
Proof.
  intros Hpass. eexists. split; [by apply normalize_lead_unfold|].
  simpl. unfold spec_fallback, py_or.
  destruct (truthy (c_email st)) eqn:He, (truthy (c_phone st)) eqn:Hp,
    (truthy (c_name st)) eqn:Hn; rewrite ?He, ?Hp, ?Hn; done.
Qed.

Lemma fallback_keys_in_order_witness :
  field_pass (JDict [("email", JStr ""); ("email_address", JStr " C@Z.com ")])
    = Ok (mkContact JNull JNull JNull)
  /\ (exists n, normalize_lead (JDict [("email", JStr ""); ("email_address", JStr " C@Z.com ")])
                = Ok n /\ email n = JStr " C@Z.com ").
Proof.
  split; [reflexivity|].
  destruct (fallback_keys_in_order
              [("email", JStr ""); ("email_address", JStr " C@Z.com ")]
              (mkContact JNull JNull JNull) eq_refl) as (n & Hnorm & Hemail & _).
  exists n. split; [exact Hnorm|exact Hemail].
Defined.

End NormalizeFacts.

(* ===================================================================== *)
(** ** Properties of [fetch_leads]                                        *)
(* ===================================================================== *)

Module FetchFacts.
Import Fetcher Shapes.

Lemma truthy_url (u : string) : u <> "" -> truthy (JStr u) = true.
Proof. intros Hu. simpl. by apply negb_true_iff, String.eqb_neq. Qed.

Lemma build_url_nonempty (cfg : Config) (form_id : string) : build_url cfg form_id <> "".
Proof.
  unfold build_url. destruct (GRAPH_API_BASE cfg); discriminate.
Qed.

(** What lines 84-94 read off a page body. *)
Lemma read_page_body (p : page) (leads : list json) :
  read_page (page_body p) leads =
  Ok (leads ++ page_records p,
      match next p with
      | Some u => JStr u
      | None => JNull
      end).
Proof.
  destruct p as [[[|x rs]|] [u|]]; unfold read_page, page_body, page_records; simpl;
    by rewrite ?app_nil_r.
Qed.

Lemma cursor_requests_cons (p : page) (rest : list page) :
  cursor_requests (p :: rest) =
  match next p with
  | Some u => (u, None) :: cursor_requests rest
  | None => cursor_requests rest
  end.
Proof. unfold cursor_requests. simpl. by destruct (next p). Qed.

Lemma fetch_loop_chain (pages : list page) :
  forall (fuel : nat) (srv : transport) (log : list request) (u : string)
         (params : option (list (string * json))) (leads : list json),
    u <> "" ->
    serves srv log (u, params) pages ->
    (List.length pages <= fuel)%nat ->
    fetch_loop fuel srv log (JStr u) params leads =
    (Some (Ok (leads ++ List.concat (map page_records pages))),
     log ++ (u, params) :: cursor_requests pages).
Proof.
  induction pages as [|p rest IH]; intros fuel srv log u params leads Hu Hserves Hfuel;
    [done|].
  destruct fuel as [|fuel]; [simpl in Hfuel; lia|].
  destruct Hserves as [Hreply Hrest].
  cbn [fetch_loop]. rewrite (truthy_url u Hu). cbn [negb].
  unfold session_get. rewrite Hreply. cbn [status_code body raise_for_status].
  change (500 <=? 200) with false. cbn iota.
  unfold raise_for_status. cbn [status_code]. change (400 <=? 200) with false.
  cbn [andb body]. rewrite read_page_body, cursor_requests_cons.
  destruct rest as [|q rest].
  - rewrite Hrest. destruct fuel; simpl; by rewrite app_nil_r.
  - destruct Hrest as (u' & -> & Hu' & Hserves').
    rewrite (IH fuel srv (log ++ [(u, params)]) u' None _ Hu' Hserves');
      [|simpl in *; lia].
    change (map page_records (p :: q :: rest))
      with (page_records p :: map page_records (q :: rest)).
    rewrite concat_cons. by rewrite <- !app_assoc.
Qed.

(** C7. When the server answers the first request with the first page of
    a chain and each cursor with the next page, [fetch_leads] (given at
    least one loop iteration per page) returns the records of all pages
    in order, a page without a list or with an empty one adding nothing,
    and sends exactly the first request with its query parameters and
    then one GET per cursor with [params=None], none after the page that
    has no cursor. *)
Theorem fetch_leads_follows_cursors (fuel : nat) (cfg : Config) (srv : transport)
    (log : list request) (token form_id : string) (since : option string)
    (page_size : Z) (pages : list page) :
  token <> "" ->
  serves srv log (build_url cfg form_id, Some (initial_params token since page_size)) pages ->
  (List.length pages <= fuel)%nat ->
  fetch_leads fuel cfg srv log (Some token) form_id since page_size =
  (Some (Ok (List.concat (map page_records pages))),
   log ++ (build_url cfg form_id, Some (initial_params token since page_size))
       :: cursor_requests pages).
Proof.
  intros Htoken Hserves Hfuel. unfold fetch_leads.
  assert (Htruthy : str_truthy (Some token) = true).
  { simpl. by apply negb_true_iff, String.eqb_neq. }
  rewrite Htruthy. cbn [negb].
  exact (fetch_loop_chain pages fuel srv log _ _ []
           (build_url_nonempty cfg form_id) Hserves Hfuel).
Qed.

Lemma fetch_leads_follows_cursors_witness :
  fetch_leads 3 sample_config three_page_server [] (Some "token") "1234567890" None 100 =
  (Some (Ok [lead_a; lead_b; lead_no_contact]),
   [("https://graph.facebook.com/v16.0/1234567890/leads",
     Some [("access_token", JStr "token");
           ("fields", JStr "field_data,created_time,id");
           ("limit", JInt 100)]);
    ("https://graph.facebook.com/next?after=1", None);
    ("https://graph.facebook.com/next?after=2", None)]).
Proof.
  apply (fetch_leads_follows_cursors 3 sample_config three_page_server []
           "token" "1234567890" None 100 three_pages).
  - discriminate.
  - simpl. split; [reflexivity|].
    eexists. split; [reflexivity|]. split; [discriminate|].
    split; [reflexivity|].
    eexists. split; [reflexivity|]. split; [discriminate|].
    split; reflexivity.
  - simpl. lia.
Defined.

End FetchFacts.

(* ===================================================================== *)
(** ** Properties of [main]                                               *)
(* ===================================================================== *)

Module MainFacts.
Import LeadDB Fetcher Shapes.

(** C10. With [--mock-sample] and no fixture file, [load_sample] returns
    the empty list instead of raising, and [main] ends with exit code 0
    having accepted nothing: neither output file is written, no request
    is sent, and the only change is that the store at [--db] exists, with
    the rows it already had. *)
Theorem missing_sample_completes (fuel : nat) (cfg : Config) (srv : transport)
    (args : Args) (w : World) :
  mock_sample args = true ->
  sample_file w = Missing ->
  load_sample w = Ok (JList [])
  /\ process (dry_run args) [] [] (init (databases w !! db args))
     = (Ok [], init (databases w !! db args))
  /\ main fuel cfg srv args w
     = (Exit 0, set_database (db args) (init (databases w !! db args)) w)
  /\ new_leads_json (snd (main fuel cfg srv args w)) = new_leads_json w
  /\ new_leads_csv (snd (main fuel cfg srv args w)) = new_leads_csv w
  /\ sent (snd (main fuel cfg srv args w)) = sent w.
Proof.
  intros Hmock Hmissing.
  assert (Hload : load_sample w = Ok (JList [])).
  { unfold load_sample. by rewrite Hmissing. }
  assert (Hmain : main fuel cfg srv args w
                  = (Exit 0, set_database (db args) (init (databases w !! db args)) w)).
  { unfold main, get_raw_leads. rewrite Hmock. cbn [negb andb].
    unfold load_sample. cbn [set_database sample_file]. rewrite Hmissing.
    cbn [mbind result_bind py_iter process write_output].
    destruct w as [sf dbs oj oc sn]. cbn [set_database databases sample_file
      new_leads_json new_leads_csv sent].
    unfold set_database. cbn [databases sample_file new_leads_json new_leads_csv sent].
    by rewrite insert_insert_eq. }
  split; [exact Hload|]. split; [reflexivity|]. split; [exact Hmain|].
  rewrite Hmain. by destruct w.
Qed.

Lemma missing_sample_completes_witness :
  main 0 sample_config three_page_server
       (mkArgs None json_mode "data/seen_leads.db" false None true)
       (mkWorld Missing {[ "data/seen_leads.db" := {[ "1" ]} ]} None None [])
  = (Exit 0, mkWorld Missing {[ "data/seen_leads.db" := {[ "1" ]} ]} None None []).
Proof.
  destruct (missing_sample_completes 0 sample_config three_page_server
              (mkArgs None json_mode "data/seen_leads.db" false None true)
              (mkWorld Missing {[ "data/seen_leads.db" := {[ "1" ]} ]} None None [])
              eq_refl eq_refl) as (_ & _ & Hmain & _).
  rewrite Hmain. vm_compute. reflexivity.
Defined.

End MainFacts.

(* ===================================================================== *)
(** ** Further properties of the seen-store                               *)
(* ===================================================================== *)

Module StoreFacts.
Import LeadDB LeadDBFacts.

(** X1. A store opened over an existing database knows its rows: after
    any calls, [is_seen(id)] is [True] exactly when [id] was a row of the
    database or has been marked since. *)
Theorem reopened_store_remembers (rows : gset string) (calls : list call) (x : string) :
  is_seen x (run calls (init (Some rows))) = true <-> x ∈ rows \/ MarkSeen x ∈ calls.
Proof. rewrite is_seen_elem. apply run_elem. Qed.

Lemma reopened_store_remembers_witness :
  is_seen "1" (run [MarkSeen "2"; IsSeen "3"] (init (Some {[ "1" ]}))) = true.
Proof.
  apply (reopened_store_remembers {[ "1" ]} [MarkSeen "2"; IsSeen "3"] "1").
  left. by apply elem_of_singleton.
Defined.

(** X2. The table a sequence of calls leaves does not depend on their
    order. *)
Theorem run_order_irrelevant (calls calls' : list call) (db : gset string) :
  calls ≡ₚ calls' -> run calls db = run calls' db.
Proof.
  intros Hperm. apply set_eq. intros x. rewrite !run_elem.
  by rewrite Hperm.
Qed.

Lemma run_order_irrelevant_witness :
  run [MarkSeen "a"; IsSeen "a"; MarkSeen "b"] {[ "z" ]}
  = run [IsSeen "a"; MarkSeen "b"; MarkSeen "a"] {[ "z" ]}.
Proof.
  apply run_order_irrelevant.
  etrans; [apply perm_swap|]. apply perm_skip, perm_swap.
Defined.

(** X3. One row per identifier: [mark_seen] adds exactly one row for an
    identifier that is not there, and none for one that is. *)
Theorem mark_seen_size (lead_id : string) (db : gset string) :
  size (mark_seen lead_id db) = if is_seen lead_id db then size db else S (size db).
Proof.
  unfold mark_seen. destruct (is_seen lead_id db) eqn:Hseen; [done|].
  apply is_seen_not_elem in Hseen.
  rewrite size_union; [by rewrite size_singleton|].
  intros x Hx%elem_of_singleton Hdb. by subst x.
Qed.

End StoreFacts.

(* ===================================================================== *)
(** ** Further properties of the pipeline loop                            *)
(* ===================================================================== *)

Module LoopFacts.
Import LeadDB LeadDBFacts Fetcher Shapes PipelineFacts.

Lemma process_concat (dry : bool) (first second : list json) :
  forall (new_leads : list Lead) (store : gset string),
    process dry (first ++ second) new_leads store =
    match process dry first new_leads store with
    | (Ok new_leads', store') => process dry second new_leads' store'
    | (Raise e, store') => (Raise e, store')
    end.
Proof.
  induction first as [|r rest IH]; intros new_leads store; [done|].
  change ((r :: rest) ++ second) with (r :: (rest ++ second)).
  rewrite !process_cons. destruct (normalize_lead r) as [n|e]; [|done].
  destruct (accepts n store); apply IH.
Qed.

(** X4. The loop over a concatenated input is the loop over the first
    part followed, if that completes, by the loop over the second part
    from the batch and the store the first part left; if the first part
    raises, that exception and the store at that point are the result. *)
Theorem process_app (dry : bool) (first second : list json) (new_leads : list Lead)
    (store : gset string) :
  process dry (first ++ second) new_leads store =
  match process dry first new_leads store with
  | (Ok new_leads', store') => process dry second new_leads' store'
  | (Raise e, store') => (Raise e, store')
  end.
Proof. apply process_concat. Qed.

(** X5. A record on which [normalize_lead] raises ends the run with that
    exception; what the records before it caused stays: the store holds
    their marks, and nothing is added for the records after it. *)
Theorem process_raise_keeps_marks (dry : bool) (before after : list json) (bad : json)
    (e : exn) (store : gset string) (batch : list Lead) (store' : gset string) :
  process dry before [] store = (Ok batch, store') ->
  normalize_lead bad = Raise e ->
  process dry (before ++ bad :: after) [] store = (Raise e, store').
Proof.
  intros Hbefore Hbad. rewrite process_concat, Hbefore, process_cons. by rewrite Hbad.
Qed.

Lemma process_raise_keeps_marks_witness :
  process false [lead_a; lead_numeric_phone; lead_b] [] ∅ = (Raise AttributeError, {[ "1" ]}).
Proof.
  apply (process_raise_keeps_marks false [lead_a] [lead_b] lead_numeric_phone
           AttributeError ∅ [norm_a] {[ "1" ]}); reflexivity.
Defined.

(** Every record of a completed batch came from the input, in input
    order, and passed all three tests against the initial store. *)
Lemma process_batch_sound (dry : bool) (raws : list json) :
  forall (store : gset string) (batch : list Lead) (store' : gset string),
    process dry raws [] store = (Ok batch, store') ->
    sublist (Ok <$> batch) (normalize_lead <$> raws)
    /\ Forall (fun n => accepts n store = true) batch.
Proof.
  induction raws as [|r rest IH]; intros store batch store' Hrun.
  - injection Hrun as <- <-. split; constructor.
  - rewrite process_cons in Hrun. rewrite fmap_cons.
    destruct (normalize_lead r) as [n|e]; [|done].
    destruct (accepts n store) eqn:Hacc.
    + rewrite process_acc in Hrun.
      destruct (process dry rest [] _) as [[new|e] st] eqn:Hrest; simpl in Hrun; [|done].
      injection Hrun as <- <-.
      destruct (IH _ _ _ Hrest) as [Hsub Hall].
      split; [by apply sublist_skip|].
      constructor; [done|].
      eapply Forall_impl; [exact Hall|]. intros m Hm. simpl in Hm.
      destruct dry; [done|].
      destruct (accepts m store) eqn:Hms; [done|].
      rewrite (accepts_mono m store (mark_seen (default "" (lead_id n)) store)) in Hm;
        [done| |done].
      intros x Hx. apply mark_seen_elem. by right.
    + destruct (IH _ _ _ Hrun) as [Hsub Hall].
      split; [by apply sublist_cons|done].
Qed.

(** X6. In either mode a completed batch is a subsequence of the
    normalised input (same order, nothing invented, so never longer than
    the input), and each of its records has a non-empty identifier that
    was not in the store when the run began and a truthy [email] or
    [phone]. *)
Theorem batch_is_valid_subsequence (dry : bool) (raw_leads : list json)
    (store : gset string) (batch : list Lead) (store' : gset string) :
  process dry raw_leads [] store = (Ok batch, store') ->
  sublist (Ok <$> batch) (normalize_lead <$> raw_leads)
  /\ (List.length batch <= List.length raw_leads)%nat
  /\ (forall n, n ∈ batch ->
        exists lid, lead_id n = Some lid /\ lid <> "" /\ (lid ∉ store)
                    /\ (truthy (email n) = true \/ truthy (phone n) = true)).
Proof.
  intros Hrun. destruct (process_batch_sound _ _ _ _ _ Hrun) as [Hsub Hall].
  split; [done|]. split.
  - apply sublist_length in Hsub. by rewrite !length_fmap in Hsub.
  - intros n Hn. apply accepts_inv. by eapply (proj1 (Forall_forall _ _) Hall).
Qed.

Lemma batch_is_valid_subsequence_witness :
  process true [lead_b; lead_no_contact; lead_a; lead_a] [] {[ "9" ]}
    = (Ok [norm_b; norm_a; norm_a], {[ "9" ]})
  /\ (List.length [norm_b; norm_a; norm_a] <= 4)%nat.
Proof.
  assert (Hrun : process true [lead_b; lead_no_contact; lead_a; lead_a] [] {[ "9" ]}
                 = (Ok [norm_b; norm_a; norm_a], {[ "9" ]})) by (vm_compute; reflexivity).
  split; [exact Hrun|].
  exact (proj1 (proj2 (batch_is_valid_subsequence _ _ _ _ _ Hrun))).
Defined.

(** A valid record of the input has its identifier in the store when a
    marking run completes. *)
Lemma process_marks_valid (raws : list json) :
  forall (acc : list Lead) (store : gset string) (batch : list Lead) (store' : gset string),
    process false raws acc store = (Ok batch, store') ->
    forall (r : json) (n : Lead) (lid : string),
      r ∈ raws -> normalize_lead r = Ok n -> lead_id n = Some lid -> lid <> "" ->
      truthy (email n) = true \/ truthy (phone n) = true ->
      lid ∈ store'.
Proof.
  induction raws as [|r0 rest IH];
    intros acc store batch store' Hrun r n lid Hin Hnorm Hlid Hne Hcontact.
  - by apply elem_of_nil in Hin.
  - pose proof (process_store_mono false rest) as Hmono.
    rewrite process_cons in Hrun.
    apply elem_of_cons in Hin as [->|Hin].
    + rewrite Hnorm in Hrun. unfold accepts, no_id in Hrun. rewrite Hlid in Hrun.
      simpl in Hrun.
      assert (Hs : negb (lid =? "")%string = true)
        by by apply negb_true_iff, String.eqb_neq.
      assert (Hc : truthy (email n) || truthy (phone n) = true)
        by (destruct Hcontact as [-> | ->]; [done|by rewrite orb_true_r]).
      rewrite Hs, Hc in Hrun. simpl in Hrun.
      destruct (is_seen lid store) eqn:Hseen; simpl in Hrun.
      * specialize (Hmono acc store). rewrite Hrun in Hmono.
        by apply Hmono, is_seen_elem.
      * specialize (Hmono (acc ++ [n]) (mark_seen lid store)). rewrite Hrun in Hmono.
        apply Hmono, mark_seen_elem. by left.
    + destruct (normalize_lead r0) as [n0|e]; [|done].
      destruct (accepts n0 store); by eapply IH.
Qed.

(** X7. When a run with [dry_run] off completes, every input record with
    a non-empty identifier and a truthy [email] or [phone] whose
    identifier was not in the store is in the store afterwards, and
    exactly one record of the batch carries its identifier. *)
Theorem valid_unseen_accepted_once (raw_leads : list json) (store : gset string)
    (batch : list Lead) (store' : gset string) (r : json) (n : Lead) (lid : string) :
  process false raw_leads [] store = (Ok batch, store') ->
  r ∈ raw_leads ->
  normalize_lead r = Ok n ->
  lead_id n = Some lid ->
  lid <> "" ->
  truthy (email n) = true \/ truthy (phone n) = true ->
  lid ∉ store ->
  lid ∈ store'
  /\ List.length (filter (fun m => lead_id m = Some lid) batch) = 1%nat.
Proof.
  intros Hrun Hin Hnorm Hlid Hne Hcontact Hfresh.
  pose proof (process_marks_valid _ _ _ _ _ Hrun r n lid Hin Hnorm Hlid Hne Hcontact)
    as Hmarked.
  split; [done|].
  destruct (process_marking_batch _ _ _ _ Hrun) as (Hnodup & Hstore & _).
  assert (Hmem : Some lid ∈ lead_id <$> batch).
  { apply Hstore in Hmarked as [?|?]; done. }
  clear - Hnodup Hmem. induction batch as [|m batch IH]; [by apply elem_of_nil in Hmem|].
  rewrite fmap_cons in Hnodup, Hmem. apply NoDup_cons in Hnodup as [Hnotin Hnodup].
  rewrite filter_cons. destruct (decide (lead_id m = Some lid)) as [Heq|Hneq].
  - simpl. f_equal. rewrite Heq in Hnotin.
    clear - Hnotin. induction batch as [|k batch IH]; [done|].
    rewrite fmap_cons in Hnotin. apply not_elem_of_cons in Hnotin as [Hk Hrest].
    rewrite filter_cons. destruct (decide (lead_id k = Some lid)); [congruence|by apply IH].
  - apply elem_of_cons in Hmem as [Heq|Hmem]; [congruence|by apply IH].
Qed.

Lemma valid_unseen_accepted_once_witness :
  process false [lead_a; lead_b; lead_a] [] ∅ = (Ok [norm_a; norm_b], {[ "1"; "2" ]})
  /\ "1" ∈ ({[ "1"; "2" ]} : gset string)
  /\ List.length (filter (fun m => lead_id m = Some "1") [norm_a; norm_b]) = 1%nat.
Proof.
  assert (Hrun : process false [lead_a; lead_b; lead_a] [] ∅
                 = (Ok [norm_a; norm_b], {[ "1"; "2" ]})) by (vm_compute; reflexivity).
  split; [exact Hrun|].
  apply (valid_unseen_accepted_once _ _ _ _ lead_a norm_a "1" Hrun).
  - apply elem_of_cons. by left.
  - reflexivity.
  - reflexivity.
  - discriminate.
  - left. reflexivity.
  - apply not_elem_of_empty.
Defined.

End LoopFacts.

(* ===================================================================== *)
(** ** Further properties of [normalize_lead]                             *)
(* ===================================================================== *)

Module FieldFacts.
Import Fetcher Shapes Trim NormalizeFacts.

Lemma str_of_Z_inj (z z' : Z) : str_of_Z z = str_of_Z z' -> z = z'.
Proof.
  unfold str_of_Z. intros Heq.
  assert (Hnonnil : forall x, Z.to_int x <> Decimal.Pos Decimal.Nil
                              /\ Z.to_int x <> Decimal.Neg Decimal.Nil).
  { intros [|p|p]; simpl; split; try discriminate;
      intros [= H]; by apply DecimalPos.Unsigned.to_uint_nonnil in H. }
  apply DecimalZ.to_int_inj.
  apply (f_equal NilZero.int_of_string) in Heq.
  rewrite !NilZero.isi in Heq by apply Hnonnil.
  by injection Heq.
Qed.

Lemma str_of_Z_nonempty (z : Z) : str_of_Z z <> "".
Proof.
  unfold str_of_Z. destruct z as [|p|p]; simpl; try discriminate.
  pose proof (DecimalPos.Unsigned.to_uint_nonnil p) as Hp.
  unfold NilZero.string_of_uint. by destruct (Pos.to_uint p).
Qed.

(** X8. An identifier given as a JSON integer becomes its decimal text:
    it is never taken for a missing identifier (not even 0), and two
    different integers never give the same identifier. *)
Theorem integer_id_stringified (kvs : list (string * json)) (z : Z) (n : Lead) :
  dict_get kvs "id" JNull = JInt z ->
  normalize_lead (JDict kvs) = Ok n ->
  lead_id n = Some (str_of_Z z)
  /\ no_id (lead_id n) = false
  /\ (forall z', str_of_Z z' = str_of_Z z -> z' = z).
Proof.
  intros Hid Hnorm.
  assert (Hlid : lead_id n = Some (str_of_Z z)).
  { unfold normalize_lead, get in Hnorm. cbn [mbind result_bind] in Hnorm.
    rewrite Hid in Hnorm. unbind Hnorm. by injection Hnorm as <-. }
  split; [done|]. split; [|intros z'; apply str_of_Z_inj].
  rewrite Hlid. unfold no_id, str_truthy.
  apply negb_false_iff, negb_true_iff, String.eqb_neq, str_of_Z_nonempty.
Qed.

Lemma integer_id_stringified_witness :
  normalize_lead (JDict [("id", JInt 0); ("phone", JStr "1")])
  = Ok (mkLead (Some "0") JNull JNull JNull (JStr "1")
          (JDict [("id", JInt 0); ("phone", JStr "1")]))
  /\ no_id (Some "0") = false.
Proof.
  assert (Hnorm : normalize_lead (JDict [("id", JInt 0); ("phone", JStr "1")])
                  = Ok (mkLead (Some "0") JNull JNull JNull (JStr "1")
                          (JDict [("id", JInt 0); ("phone", JStr "1")]))) by reflexivity.
  split; [exact Hnorm|].
  exact (proj1 (proj2 (integer_id_stringified [("id", JInt 0); ("phone", JStr "1")] 0 _
                         eq_refl Hnorm))).
Defined.

(** *** What [strip] and [lower] leave alone *)


























End FieldFacts.

(* ===================================================================== *)
(** ** Further properties of [fetch_leads]                                *)
(* ===================================================================== *)

Module RetryFacts.
Import Fetcher Shapes FetchFacts.







(** X13. A body that is a bare JSON array is taken as the whole result:
    its items are the leads, and no further request is made. *)
Theorem bare_array_is_last_page (fuel : nat) (cfg : Config) (srv : transport)
    (log : list request) (token form_id : string) (since : option string)
    (page_size : Z) (items : list json) :
  token <> "" ->
  srv log (build_url cfg form_id, Some (initial_params token since page_size))
    = Response (mkResponse 200 (Some (JList items))) ->
  fetch_leads (S fuel) cfg srv log (Some token) form_id since page_size
  = (Some (Ok items),
     log ++ [(build_url cfg form_id, Some (initial_params token since page_size))]).
Proof.
  intros Htoken Hreply. unfold fetch_leads.
  assert (Htruthy : str_truthy (Some token) = true).
  { simpl. by apply negb_true_iff, String.eqb_neq. }
  rewrite Htruthy. change (default "" (Some token)) with token. cbn [negb fetch_loop].
  rewrite (truthy_url _ (build_url_nonempty cfg form_id)). cbn [negb].
  unfold session_get. rewrite Hreply. cbn [status_code body].
  change (500 <=? 200) with false. cbn iota.
  unfold raise_for_status. cbn [status_code body]. change (400 <=? 200) with false.
  cbn [andb]. unfold read_page, get.
  destruct items as [|x items]; cbn; by destruct fuel.
Qed.

Lemma bare_array_is_last_page_witness :
  fetch_leads 1 sample_config Fixtures.array_server [] (Some "token") "1234567890" None 100
  = (Some (Ok [lead_a; lead_b]),
     [("https://graph.facebook.com/v16.0/1234567890/leads",
       Some [("access_token", JStr "token");
             ("fields", JStr "field_data,created_time,id");
             ("limit", JInt 100)])]).
Proof.
  apply (bare_array_is_last_page 0 sample_config Fixtures.array_server []
           "token" "1234567890" None 100 [lead_a; lead_b]).
  - discriminate.
  - reflexivity.
Defined.

(** From the second iteration on, every request goes out with
    [params=None]. *)
Lemma fetch_loop_no_params (srv : transport) (fuel : nat) :
  forall (log : list request) (url : json) (leads : list json),
    exists new : list request,
      snd (fetch_loop fuel srv log url None leads) = log ++ new
      /\ Forall (fun req => snd req = None) new.
Proof.
  induction fuel as [|fuel IH]; intros log url leads.
  - exists []. rewrite app_nil_r. split; [|constructor].
    simpl. by destruct (truthy url).
  - cbn [fetch_loop]. destruct (truthy url); cbn [negb];
      [|exists []; by rewrite app_nil_r].
    unfold session_get. destruct url as [| | | |u| |];
      try (exists []; by rewrite app_nil_r).
    assert (Hone : Forall (fun req : request => snd req = None) [(u, None)])
      by by constructor.
    assert (Htwo : Forall (fun req : request => snd req = None) [(u, None); (u, None)])
      by by repeat constructor.
    destruct (srv log (u, None)) as [resp|e]; [|by exists [(u, None)]].
    destruct (500 <=? status_code resp).
    + destruct (srv (log ++ [(u, None)]) (u, None)) as [resp2|e];
        [|exists [(u, None); (u, None)]; by rewrite <- app_assoc].
      destruct (raise_for_status resp2);
        [|exists [(u, None); (u, None)]; by rewrite <- app_assoc].
      destruct (body resp2) as [data|];
        [|exists [(u, None); (u, None)]; by rewrite <- app_assoc].
      destruct (read_page data leads) as [[leads' url']|e];
        [|exists [(u, None); (u, None)]; by rewrite <- app_assoc].
      destruct (IH ((log ++ [(u, None)]) ++ [(u, None)]) url' leads') as (new & -> & Hnew).
      exists ([(u, None); (u, None)] ++ new). rewrite <- !app_assoc. split; [done|].
      by apply Forall_app.
    + destruct (raise_for_status resp); [|by exists [(u, None)]].
      destruct (body resp) as [data|]; [|by exists [(u, None)]].
      destruct (read_page data leads) as [[leads' url']|e]; [|by exists [(u, None)]].
      destruct (IH (log ++ [(u, None)]) url' leads') as (new & -> & Hnew).
      exists ([(u, None)] ++ new). rewrite <- !app_assoc. split; [done|].
      by apply Forall_app.
Qed.

(** X14. Whatever the server answers, the query parameters (and with them
    the access token) go out only with the request to the form URL: the
    requests [fetch_leads] sends are none at all, or that first request,
    perhaps once repeated, followed only by requests with
    [params=None]. *)
Theorem params_only_on_first_request (fuel : nat) (cfg : Config) (srv : transport)
    (log : list request) (access_token : option string) (form_id : string)
    (since : option string) (page_size : Z) :
  exists (first later : list request),
    snd (fetch_leads fuel cfg srv log access_token form_id since page_size)
      = log ++ first ++ later
    /\ (List.length first <= 2)%nat
    /\ Forall (fun req => req = (build_url cfg form_id,
                                 Some (initial_params (default "" access_token)
                                         since page_size))) first
    /\ Forall (fun req => snd req = None) later.
Proof.
  set (req0 := (build_url cfg form_id,
                Some (initial_params (default "" access_token) since page_size))).
  assert (Hnone : exists first later : list request,
             log = log ++ first ++ later /\ (List.length first <= 2)%nat
             /\ Forall (fun req => req = req0) first
             /\ Forall (fun req : request => snd req = None) later).
  { exists [], []. rewrite !app_nil_r. repeat split; simpl; try lia; constructor. }
  assert (Hone : forall log' : list request, log' = log ++ [req0] ->
             exists first later : list request,
               log' = log ++ first ++ later /\ (List.length first <= 2)%nat
               /\ Forall (fun req => req = req0) first
               /\ Forall (fun req : request => snd req = None) later).
  { intros log' ->. exists [req0], []. repeat split; simpl; try lia; by repeat constructor. }
  assert (Htwo : forall log' : list request, log' = (log ++ [req0]) ++ [req0] ->
             exists first later : list request,
               log' = log ++ first ++ later /\ (List.length first <= 2)%nat
               /\ Forall (fun req => req = req0) first
               /\ Forall (fun req : request => snd req = None) later).
  { intros log' ->. exists [req0; req0], []. rewrite <- app_assoc.
    repeat split; simpl; try lia; by repeat constructor. }
  unfold fetch_leads. destruct (str_truthy access_token); cbn [negb]; [|exact Hnone].
  fold req0. destruct fuel as [|fuel]; cbn [fetch_loop].
  { rewrite (truthy_url _ (build_url_nonempty cfg form_id)). exact Hnone. }
  rewrite (truthy_url _ (build_url_nonempty cfg form_id)). cbn [negb].
  unfold session_get. fold req0.
  destruct (srv log req0) as [resp|e]; [|by apply Hone].
  destruct (500 <=? status_code resp).
  - destruct (srv (log ++ [req0]) req0) as [resp2|e]; [|by apply Htwo].
    destruct (raise_for_status resp2); [|by apply Htwo].
    destruct (body resp2) as [data|]; [|by apply Htwo].
    destruct (read_page data []) as [[leads' url']|e]; [|by apply Htwo].
    destruct (fetch_loop_no_params srv fuel ((log ++ [req0]) ++ [req0]) url' leads')
      as (new & -> & Hnew).
    exists [req0; req0], new. rewrite <- !app_assoc.
    repeat split; simpl; try lia; try done; by repeat constructor.
  - destruct (raise_for_status resp); [|by apply Hone].
    destruct (body resp) as [data|]; [|by apply Hone].
    destruct (read_page data []) as [[leads' url']|e]; [|by apply Hone].
    destruct (fetch_loop_no_params srv fuel (log ++ [req0]) url' leads')
      as (new & -> & Hnew).
    exists [req0], new. rewrite <- !app_assoc.
    repeat split; simpl; try lia; try done; by repeat constructor.
Qed.

End RetryFacts.

(* ===================================================================== *)
(** ** Further properties of [main]                                       *)
(* ===================================================================== *)

Module RunFacts.
Import LeadDB LeadDBFacts Fetcher Shapes PipelineFacts FetchFacts.

Lemma fetch_loop_endless (srv : transport) :
  (forall log req, exists p u,
      srv log req = Response (mkResponse 200 (Some (page_body p)))
      /\ next p = Some u /\ u <> "") ->
  forall (fuel : nat) (log : list request) (u : string)
         (params : option (list (string * json))) (leads : list json),
    u <> "" ->
    fst (fetch_loop fuel srv log (JStr u) params leads) = None
    /\ List.length (snd (fetch_loop fuel srv log (JStr u) params leads))
       = (List.length log + fuel)%nat.
Proof.
  intros Hsrv. induction fuel as [|fuel IH]; intros log u params leads Hu.
  - cbn [fetch_loop]. rewrite (truthy_url u Hu). simpl. split; [done|lia].
  - cbn [fetch_loop]. rewrite (truthy_url u Hu). cbn [negb].
    destruct (Hsrv log (u, params)) as (p & u' & Hreply & Hnext & Hu').
    unfold session_get. rewrite Hreply. cbn [status_code body].
    change (500 <=? 200) with false. cbn iota.
    unfold raise_for_status. cbn [status_code body]. change (400 <=? 200) with false.
    cbn [andb]. rewrite read_page_body, Hnext.
    destruct (IH (log ++ [(u, params)]) u' None (leads ++ page_records p) Hu') as [-> ->].
    split; [done|]. rewrite length_app. simpl. lia.
Qed.

(** X15. Nothing bounds the number of pages: against a server whose every
    page carries a cursor the fetch does not end, whatever [--max-pages]
    says; after any number of loop iterations [main] is still fetching
    and has sent one request per iteration. *)
Theorem max_pages_not_enforced (fuel : nat) (cfg : Config) (srv : transport)
    (args : Args) (w : World) :
  mock_sample args = false ->
  str_truthy (ACCESS_TOKEN cfg) = true ->
  str_truthy (LEAD_FORM_ID cfg) = true ->
  (forall log req, exists p u,
      srv log req = Response (mkResponse 200 (Some (page_body p)))
      /\ next p = Some u /\ u <> "") ->
  fst (main fuel cfg srv args w) = OutOfFuel
  /\ List.length (sent (snd (main fuel cfg srv args w))) = (List.length (sent w) + fuel)%nat.
Proof.
  intros Hmock Htoken Hform Hsrv.
  unfold main, get_raw_leads, fetch_leads. rewrite Hmock, Htoken, Hform. cbn [negb andb orb].
  destruct (fetch_loop_endless srv Hsrv fuel (sent w)
              (build_url cfg (default "" (LEAD_FORM_ID cfg)))
              (Some (initial_params (default "" (ACCESS_TOKEN cfg)) (since args)
                       (PAGE_SIZE cfg))) []
              (build_url_nonempty cfg _)) as [Hnone Hlen].
  cbn [set_database sent].
  destruct (fetch_loop fuel srv (sent w) _ _ []) as [r log'].
  simpl in Hnone, Hlen. subst r. by simpl.
Qed.

Lemma max_pages_not_enforced_witness :
  max_pages Fixtures.live_args = Some 1
  /\ fst (main 7 sample_config Fixtures.endless_server Fixtures.live_args
            Fixtures.empty_world) = OutOfFuel
  /\ List.length (sent (snd (main 7 sample_config Fixtures.endless_server
                               Fixtures.live_args Fixtures.empty_world))) = 7%nat.
Proof.
  split; [reflexivity|].
  apply (max_pages_not_enforced 7 sample_config Fixtures.endless_server
           Fixtures.live_args Fixtures.empty_world); try reflexivity.
  intros log req. exists (mkPage (Some [lead_a]) (Some "https://x/next")), "https://x/next".
  split; [reflexivity|]. split; [reflexivity|discriminate].
Defined.

(** Without [--mock-sample], a missing or empty access token or form
    identifier ends [main] with exit code 1 before anything is touched:
    no database is created, no request sent, no file written. *)
Theorem missing_credentials_exit_1 (fuel : nat) (cfg : Config) (srv : transport)
    (args : Args) (w : World) :
  mock_sample args = false ->
  str_truthy (ACCESS_TOKEN cfg) = false \/ str_truthy (LEAD_FORM_ID cfg) = false ->
  main fuel cfg srv args w = (Exit 1, w).
Proof.
  intros Hmock Hmissing. unfold main. rewrite Hmock.
  destruct Hmissing as [-> | ->]; [done|]. cbn [negb andb]. by rewrite orb_true_r.
Qed.

Lemma missing_credentials_exit_1_witness :
  main 3 (mkConfig (Some "") (Some "1234567890") "v16.0" "https://graph.facebook.com"
            "data/seen_leads.db" 100)
       Fixtures.array_server Fixtures.live_args Fixtures.empty_world
  = (Exit 1, Fixtures.empty_world).
Proof.
  apply missing_credentials_exit_1; [reflexivity|left; reflexivity].
Defined.

(** Every way [main] can end leaves a world of one shape. *)
Lemma main_world (fuel : nat) (cfg : Config) (srv : transport) (args : Args) (w : World) :
  snd (main fuel cfg srv args w) = w
  \/ exists (store' : gset string) (log : list request) (new_leads : list Lead),
       snd (main fuel cfg srv args w)
         = write_output new_leads (output args)
             (mkWorld (sample_file w) (<[db args := store']> (databases w))
                      (new_leads_json w) (new_leads_csv w) log)
       /\ init (databases w !! db args) ⊆ store'
       /\ (dry_run args = true -> store' = init (databases w !! db args))
       /\ (mock_sample args = true -> log = sent w).
Proof.
  unfold main.
  destruct (negb (mock_sample args) && _); [by left|]. right.
  set (store := init (databases w !! db args)).
  assert (Hbase : forall (log : list request),
            (mock_sample args = true -> log = sent w) ->
            exists (store' : gset string) (log' : list request) (new_leads : list Lead),
              set_sent log (set_database (db args) store w)
                = write_output new_leads (output args)
                    (mkWorld (sample_file w) (<[db args := store']> (databases w))
                             (new_leads_json w) (new_leads_csv w) log')
              /\ store ⊆ store' /\ (dry_run args = true -> store' = store)
              /\ (mock_sample args = true -> log' = sent w)).
  { intros log Hlog. by exists store, log, []. }
  assert (Hdone : forall (log : list request) (store' : gset string) (new_leads : list Lead),
            (mock_sample args = true -> log = sent w) ->
            store ⊆ store' -> (dry_run args = true -> store' = store) ->
            exists (store'' : gset string) (log' : list request) (new_leads' : list Lead),
              write_output new_leads (output args)
                (set_database (db args) store' (set_sent log (set_database (db args) store w)))
                = write_output new_leads' (output args)
                    (mkWorld (sample_file w) (<[db args := store'']> (databases w))
                             (new_leads_json w) (new_leads_csv w) log')
              /\ store ⊆ store'' /\ (dry_run args = true -> store'' = store)
              /\ (mock_sample args = true -> log' = sent w)).
  { intros log store' new_leads Hlog Hsub Hdry. exists store', log, new_leads.
    unfold set_database, set_sent. cbn [sample_file databases new_leads_json new_leads_csv sent].
    by rewrite insert_insert_eq. }
  assert (Hloop : forall raws, store ⊆ snd (process (dry_run args) raws [] store)
                               /\ (dry_run args = true ->
                                   snd (process (dry_run args) raws [] store) = store)).
  { intros raws. split; [apply process_store_mono|].
    intros ->. apply process_dry_store. }
  unfold get_raw_leads. destruct (mock_sample args) eqn:Hmock.
  - assert (Hw : set_database (db args) store w
                 = set_sent (sent w) (set_database (db args) store w)) by done.
    destruct (load_sample _ ≫= _) as [raws|e].
    + destruct (Hloop raws) as [Hsub Hdry].
      destruct (process (dry_run args) raws [] store) as [[new_leads|e] store'];
        simpl in Hsub, Hdry; cbn [snd]; rewrite Hw.
      * by apply Hdone.
      * by apply (Hdone (sent w) store' []).
    + cbn [snd]. rewrite Hw. by apply Hbase.
  - destruct (fetch_leads _ _ _ _ _ _ _ _) as [[[raws|e]|] log].
    + destruct (Hloop raws) as [Hsub Hdry].
      destruct (process (dry_run args) raws [] store) as [[new_leads|e] store'];
        simpl in Hsub, Hdry; cbn [snd].
      * by apply Hdone.
      * by apply (Hdone log store' []).
    + cbn [snd]. by apply Hbase.
    + cbn [snd]. by apply Hbase.
Qed.

(** X16. However [main] ends, the only database it touches is the one at
    [--db]: every other path is as before, the rows that store had are
    all still there, and with [--dry-run] it has exactly those rows. *)
Theorem main_touches_only_its_store (fuel : nat) (cfg : Config) (srv : transport)
    (args : Args) (w : World) :
  (forall path, path <> db args ->
     databases (snd (main fuel cfg srv args w)) !! path = databases w !! path)
  /\ init (databases w !! db args)
       ⊆ init (databases (snd (main fuel cfg srv args w)) !! db args)
  /\ (dry_run args = true ->
      init (databases (snd (main fuel cfg srv args w)) !! db args)
      = init (databases w !! db args)).
Proof.
  destruct (main_world fuel cfg srv args w)
    as [-> | (store' & log & new_leads & -> & Hsub & Hdry & _)]; [done|].
  assert (Hdbs : databases (write_output new_leads (output args)
                   (mkWorld (sample_file w) (<[db args := store']> (databases w))
                            (new_leads_json w) (new_leads_csv w) log))
                 = <[db args := store']> (databases w)).
  { unfold write_output. by destruct new_leads, (output args). }
  rewrite Hdbs. split; [|split].
  - intros path Hpath. by rewrite lookup_insert_ne.
  - by rewrite lookup_insert_eq.
  - rewrite lookup_insert_eq. exact Hdry.
Qed.

Lemma main_touches_only_its_store_witness :
  databases (snd (main 0 sample_config Fixtures.array_server Fixtures.mock_args
                    (mkWorld (Parsed (JList [lead_a])) {[ "other.db" := {[ "9" ]} ]}
                             None None [])))
    !! "other.db" = Some {[ "9" ]}.
Proof.
  rewrite (proj1 (main_touches_only_its_store 0 sample_config Fixtures.array_server
                    Fixtures.mock_args
                    (mkWorld (Parsed (JList [lead_a])) {[ "other.db" := {[ "9" ]} ]}
                             None None [])) "other.db"); [reflexivity|discriminate].
Defined.

(** X17. However [main] ends, it does not touch the fixture, it writes at
    most the output file of the chosen format (the other one is as
    before), and with [--mock-sample] it sends no request. *)
Theorem main_writes_only_chosen_file (fuel : nat) (cfg : Config) (srv : transport)
    (args : Args) (w : World) :
  sample_file (snd (main fuel cfg srv args w)) = sample_file w
  /\ (output args = json_mode ->
      new_leads_csv (snd (main fuel cfg srv args w)) = new_leads_csv w)
  /\ (output args = csv_mode ->
      new_leads_json (snd (main fuel cfg srv args w)) = new_leads_json w)
  /\ (mock_sample args = true -> sent (snd (main fuel cfg srv args w)) = sent w).
Proof.
  destruct (main_world fuel cfg srv args w)
    as [-> | (store' & log & new_leads & -> & _ & _ & Hlog)]; [done|].
  unfold write_output.
  destruct new_leads, (output args); simpl; repeat split; by auto.
Qed.

Lemma main_writes_only_chosen_file_witness :
  new_leads_csv (snd (main 0 sample_config Fixtures.array_server Fixtures.mock_args
                        (mkWorld (Parsed (JList [lead_a])) ∅ None
                                 (Some (csv_fieldnames, [norm_b])) [])))
  = Some (csv_fieldnames, [norm_b]).
Proof.
  apply (main_writes_only_chosen_file 0 sample_config Fixtures.array_server
           Fixtures.mock_args
           (mkWorld (Parsed (JList [lead_a])) ∅ None (Some (csv_fieldnames, [norm_b])) [])).
  reflexivity.
Defined.



(** X19. With [--mock-sample], a fixture that is a non-empty JSON object
    instead of an array makes the loop run over its keys: the first one,
    a string, has no [get], so [main] ends with an uncaught
    [AttributeError], nothing accepted, marked or written. *)
Theorem object_fixture_raises (fuel : nat) (cfg : Config) (srv : transport)
    (args : Args) (w : World) (k : string) (v : json) (kvs : list (string * json)) :
  mock_sample args = true ->
  sample_file w = Parsed (JDict ((k, v) :: kvs)) ->
  main fuel cfg srv args w
  = (Uncaught AttributeError, set_database (db args) (init (databases w !! db args)) w).
Proof.
  intros Hmock Hsample. unfold main, get_raw_leads, load_sample.
  rewrite Hmock. cbn [negb andb set_database sample_file]. rewrite Hsample.
  cbn [mbind result_bind py_iter map process normalize_lead get].
  unfold set_database. cbn [databases sample_file new_leads_json new_leads_csv sent].
  by rewrite insert_insert_eq.
Qed.

Lemma object_fixture_raises_witness :
  main 0 sample_config Fixtures.array_server Fixtures.mock_args
       (mkWorld (Parsed (JDict [("data", JList [lead_a])])) ∅ None None [])
  = (Uncaught AttributeError,
     mkWorld (Parsed (JDict [("data", JList [lead_a])]))
             {[ "data/seen_leads.db" := ∅ ]} None None []).
Proof.
  rewrite (object_fixture_raises 0 sample_config Fixtures.array_server Fixtures.mock_args
             (mkWorld (Parsed (JDict [("data", JList [lead_a])])) ∅ None None [])
             "data" (JList [lead_a]) [] eq_refl eq_refl).
  vm_compute. reflexivity.
Defined.

End RunFacts.

(* ===================================================================== *)
(** ** Properties of the CSV header                                       *)
(* ===================================================================== *)

Module CsvFacts.
Import Fetcher Shapes Csv.

Lemma fold_keys_elem (rows : list row) (acc : gset string) (k : string) :
  k ∈ fold_left (fun keys l => keys ∪ list_to_set (map fst l)) rows acc
  <-> k ∈ acc \/ exists l, l ∈ rows /\ k ∈ map fst l.
Proof.
  revert acc. induction rows as [|l rows IH]; intros acc; simpl.
  - split; [by left|]. intros [?|(l & Hl & _)]; [done|]. by apply elem_of_nil in Hl.
  - rewrite IH, elem_of_union, elem_of_list_to_set. split.
    + intros [[?|?]|(l' & Hl' & Hk)]; [by left| |].
      * right. exists l. split; [by left|done].
      * right. exists l'. split; [by right|done].
    + intros [?|(l' & Hl' & Hk)]; [left; by left|].
      apply elem_of_cons in Hl' as [->|Hl']; [left; by right|].
      right. by exists l'.
Qed.

Lemma all_keys_elem (rows : list row) (k : string) :
  k ∈ all_keys rows <-> exists l, l ∈ rows /\ k ∈ map fst l.
Proof.
  unfold all_keys. rewrite fold_keys_elem, elem_of_empty. split; [|by right].
  by intros [[]|?].
Qed.

Lemma extra_elem (rows : list row) (k : string) :
  k ∈ py_sorted (filter (fun k => k ∉ main_fields) (elements (all_keys rows)))
  <-> (k ∉ main_fields) /\ k ∈ all_keys rows.
Proof.
  unfold py_sorted. rewrite merge_sort_Permutation, list_elem_of_filter, elem_of_elements.
  done.
Qed.

(** X20. The header of the CSV has the five main fields first, in their
    fixed order, then the remaining keys in ascending order; it names
    every key of every row, so no row has a value without a column; it
    names nothing else; and no column occurs twice. *)
Theorem fieldnames_cover_rows (rows : list row) :
  take 5 (fieldnames rows) = main_fields
  /\ Sorted String.le (drop 5 (fieldnames rows))
  /\ (forall l k v, l ∈ rows -> (k, v) ∈ l -> k ∈ fieldnames rows)
  /\ (forall k, k ∈ fieldnames rows ->
        k ∈ main_fields \/ exists l, l ∈ rows /\ k ∈ map fst l)
  /\ NoDup (fieldnames rows).
Proof.
  unfold fieldnames. split; [done|]. split.
  { change (drop 5 (main_fields ++ ?l)) with l. cbn [drop app main_fields].
    apply Sorted_merge_sort. apply _. }
  split; [|split].
  - intros l k v Hl Hkv. apply elem_of_app.
    destruct (decide (k ∈ main_fields)) as [Hmain|Hother]; [by left|right].
    apply extra_elem. split; [done|]. apply all_keys_elem. exists l. split; [done|].
    apply list_elem_of_In, in_map_iff. exists (k, v). split; [done|].
    by apply list_elem_of_In.
  - intros k [Hmain|Hextra]%elem_of_app; [by left|right].
    apply extra_elem in Hextra as [_ Hkeys]. by apply all_keys_elem.
  - apply NoDup_app. split; [|split].
    + apply (bool_decide_unpack _). by vm_compute.
    + intros k Hmain Hextra. by apply extra_elem in Hextra as [Hnot _].
    + unfold py_sorted. rewrite merge_sort_Permutation.
      apply NoDup_filter, NoDup_elements.
Qed.

Lemma fieldnames_cover_rows_witness :
  "zeta" ∈ fieldnames [[("zeta", JNull); ("name", JStr "Ann")]; [("alpha", JInt 1)]].
Proof.
  apply (proj1 (proj2 (proj2 (fieldnames_cover_rows
                                [[("zeta", JNull); ("name", JStr "Ann")]; [("alpha", JInt 1)]])))
           [("zeta", JNull); ("name", JStr "Ann")] "zeta" JNull);
    apply elem_of_cons; by left.
Defined.

Lemma lead_row_keys (n : Lead) :
  map fst (lead_row n) = ["lead_id"; "name"; "email"; "phone"; "created_time"; "raw"].
Proof. reflexivity. Qed.

(** X21. For the rows [main] builds, whatever their number and content,
    the header is the five main fields followed by ["raw"]. *)
Theorem fieldnames_of_leads (n : Lead) (batch : list Lead) :
  fieldnames (lead_row <$> (n :: batch)) = csv_fieldnames.
Proof.
  assert (Hkeys : all_keys (lead_row <$> (n :: batch))
                  = list_to_set ["lead_id"; "name"; "email"; "phone"; "created_time"; "raw"]).
  { apply set_eq. intros k. rewrite all_keys_elem, elem_of_list_to_set. split.
    - intros (l & Hl & Hk). apply list_elem_of_fmap in Hl as (m & -> & _).
      by rewrite lead_row_keys in Hk.
    - intros Hk. exists (lead_row n). split; [rewrite fmap_cons; by left|].
      by rewrite lead_row_keys. }
  unfold fieldnames. rewrite Hkeys. by vm_compute.
Qed.

End CsvFacts.

(* ===================================================================== *)
(** ** The two modes of the loop compared                                 *)
(* ===================================================================== *)

Module ModeFacts.
Import LeadDB LeadDBFacts Fetcher Shapes PipelineFacts.

Lemma process_modes (raws : list json) :
  forall (store store2 : gset string),
    store ⊆ store2 ->
    match fst (process true raws [] store), fst (process false raws [] store2) with
    | Ok shown, Ok kept => sublist kept shown
    | Raise e, Raise e' => e = e'
    | _, _ => False
    end.
Proof.
  induction raws as [|r rest IH]; intros store store2 Hsub; [by simpl|].
  rewrite !process_cons. destruct (normalize_lead r) as [n|e]; [|done].
  destruct (accepts n store2) eqn:Hacc2.
  - assert (Hacc : accepts n store = true).
    { destruct (accepts n store) eqn:Hacc; [done|].
      by rewrite (accepts_mono n store store2 Hsub Hacc) in Hacc2. }
    rewrite Hacc. rewrite (process_acc true), (process_acc false). cbn [fst].
    specialize (IH store (mark_seen (default "" (lead_id n)) store2)).
    destruct (fst (process true rest [] store)),
      (fst (process false rest [] (mark_seen (default "" (lead_id n)) store2)));
      simpl; simpl in IH.
    + apply sublist_skip, IH. intros x Hx. apply mark_seen_elem. right. by apply Hsub.
    + apply IH. intros x Hx. apply mark_seen_elem. right. by apply Hsub.
    + apply IH. intros x Hx. apply mark_seen_elem. right. by apply Hsub.
    + apply IH. intros x Hx. apply mark_seen_elem. right. by apply Hsub.
  - specialize (IH store store2 Hsub).
    destruct (accepts n store); [|exact IH].
    rewrite (process_acc true). cbn [fst].
    destruct (fst (process true rest [] store)), (fst (process false rest [] store2));
      simpl; try done.
    by apply sublist_cons.
Qed.

(** X22. On the same input and store, a dry run and a run with marking
    end the same way: either both raise the same exception, or both
    complete and the batch of the marking run is a subsequence of the
    batch of the dry run (the dry run shows every record the real run
    would keep, in the same order, and possibly repeats). *)
Theorem dry_run_shows_at_least_real_batch (raw_leads : list json) (store : gset string) :
  match fst (process true raw_leads [] store), fst (process false raw_leads [] store) with
  | Ok shown, Ok kept => sublist kept shown
  | Raise e, Raise e' => e = e'
  | _, _ => False
  end.
Proof. by apply process_modes. Qed.

End ModeFacts.
